(** * Streaming CSV price analyzer: tokenizer, row parser, indicators, driver

    A shallow embedding of the C++ sources of the analyzer
    ([indicators.hpp], [csv.hpp], [analyzer.cpp]) and the properties of its
    specification that were checked against it.

    Conventions of the embedding:
    - [double] is the kernel's binary64 [float]; every arithmetic operation
      of the source is the corresponding correctly rounded primitive, each
      rounded on its own (a product and the sum that uses it are not fused).
    - [int], [long] and [size_t] values are integers in [Z]; the conversions
      the C++ compiler inserts between them, and from them to [double], are
      written out ([to_size_t], [wrap_long], [Double.of_Z]).
    - [std::deque<double>] is a list, front first: [push_back] appends,
      [pop_front] drops the head.
    - [std::unordered_map<std::string, Series>] is a [gmap string Series.t].
    - a [const char *] into the line buffer is either the null pointer or an
      offset into the line; dereferencing the null pointer is recorded as an
      undefined run ([NullDeref]). *)

From Stdlib Require Import ZArith List String Ascii Bool Lia.
From Stdlib Require Import Floats.
From stdpp Require Import gmap strings.
Import ListNotations.

(* ===================================================================== *)
(** * Numeric conversions                                                 *)
(* ===================================================================== *)

Module Double.

(** Conversion of an integer value to [double] (round to nearest, ties to
    even): what [static_cast<double>] and the usual arithmetic conversions
    do with [int], [long] and [size_t] operands. *)
Definition of_Z (z : Z) : float :=
  SF2Prim (binary_normalize prec emax z 0 false).

Definition of_nat (n : nat) : float := of_Z (Z.of_nat n).

(** [std::accumulate(first, last, init)] over doubles. *)
Definition accumulate (l : list float) (init : float) : float :=
  fold_left PrimFloat.add l init.

End Double.

(** The largest [int]. *)
Definition INT_MAX : Z := (2 ^ 31 - 1)%Z.

(** Value of an [int] or [long] converted to [size_t] (64 bits). *)
Definition to_size_t (z : Z) : Z := (z mod 2 ^ 64)%Z.

(** Two's complement value of a [long] result (64 bits). *)
Definition wrap_long (z : Z) : Z := ((z + 2 ^ 63) mod 2 ^ 64 - 2 ^ 63)%Z.

(* ===================================================================== *)
(** * indicators.hpp                                                      *)
(* ===================================================================== *)

Inductive IndicatorType := SMA | EMA | VOLATILITY | VWAP.

Module SMAIndicator.
Local Open Scope float_scope.

Record t := mk { prices : list float; window_size : Z }.

Definition make (window : Z) : t := mk [] window.

(** [prices.size() > window_size] compares a [size_t] with an [int]: the
    [int] is converted to [size_t] first. *)
Definition update (s : t) (price : float) : t :=
  let pushed := prices s ++ [price] in
  if (to_size_t (window_size s) <? Z.of_nat (length pushed))%Z
  then mk (tail pushed) (window_size s)
  else mk pushed (window_size s).

Definition get_value (s : t) : float :=
  match prices s with
  | [] => 0
  | _ => Double.accumulate (prices s) 0 / Double.of_nat (length (prices s))
  end.

End SMAIndicator.

Module EMAIndicator.
Local Open Scope float_scope.

Record t := mk { current_ema : float; alpha : float; first_price : bool }.

Definition make (smoothing_factor : float) : t := mk 0 smoothing_factor true.

Definition update (s : t) (price : float) : t :=
  if first_price s
  then mk price (alpha s) false
  else mk (alpha s * price + (1 - alpha s) * current_ema s) (alpha s) false.

Definition get_value (s : t) : float := current_ema s.

End EMAIndicator.

Module VolatilityIndicator.
Local Open Scope float_scope.

(** [window_size] is a [size_t] here. *)
Record t := mk { returns : list float; window_size : Z }.

Definition make (window : Z) : t := mk [] window.

Definition update (s : t) (return_val : float) : t :=
  let pushed := returns s ++ [return_val] in
  if (window_size s <? Z.of_nat (length pushed))%Z
  then mk (tail pushed) (window_size s)
  else mk pushed (window_size s).

(** The range-for loop of [get_value]. *)
Definition sum_squared_diffs (l : list float) (mean : float) : float :=
  fold_left (fun acc ret => let diff := ret - mean in acc + diff * diff) l 0.

Definition get_value (s : t) : float :=
  if (length (returns s) <? 2)%nat then 0
  else
    let n := length (returns s) in
    let mean := Double.accumulate (returns s) 0 / Double.of_nat n in
    let variance :=
      sum_squared_diffs (returns s) mean / Double.of_nat (n - 1) in
    PrimFloat.sqrt variance.

End VolatilityIndicator.

Module VWAPIndicator.
Local Open Scope float_scope.

Record t := mk { price_volume_sum : float;
                 volume_sum : Z;
                 current_date : string }.

Definition make : t := mk 0 0%Z EmptyString.

(** [timestamp.substr(0, 10)]: the first ten characters, or the whole
    string when it is shorter. *)
Definition new_date_of (timestamp : string) : string :=
  substring 0 10 timestamp.

(** The running totals after the optional reset. An overflow of the [long]
    sum, which C++ leaves undefined, is taken to wrap. *)
Definition accumulate_trade (s : t) (price : float) (volume : Z) : t :=
  mk (price_volume_sum s + price * Double.of_Z volume)
     (wrap_long (volume_sum s + volume))
     (current_date s).

Definition update (s : t) (price : float) (volume : Z) (timestamp : string)
  : t :=
  let new_date := new_date_of timestamp in
  let s1 := if String.eqb (current_date s) new_date
            then s
            else mk 0 0%Z new_date in
  accumulate_trade s1 price volume.

Definition get_value (s : t) : float :=
  if (volume_sum s =? 0)%Z then 0
  else price_volume_sum s / Double.of_Z (volume_sum s).

End VWAPIndicator.

Module Series.
Local Open Scope float_scope.

Record t := mk { sma : SMAIndicator.t;
                 ema : EMAIndicator.t;
                 volatility : VolatilityIndicator.t;
                 vwap : VWAPIndicator.t;
                 last_price : float }.

(** [vol_window] is an [int] handed to a constructor that takes a
    [size_t]. *)
Definition make (sma_window : Z) (ema_alpha : float) (vol_window : Z) : t :=
  mk (SMAIndicator.make sma_window)
     (EMAIndicator.make ema_alpha)
     (VolatilityIndicator.make (to_size_t vol_window))
     VWAPIndicator.make
     0.

(** A division evaluated by [update], with its operands. *)
Inductive event := Divide (numerator denominator : float).

(** [update], returning next to the new state the divisions it
    evaluated, in order. *)
Definition update_traced (s : t) (price : float) (volume : Z) (ts : string)
  : t * list event :=
  if last_price s =? 0 then
    (mk (sma s) (ema s) (volatility s) (vwap s) price, [])
  else
    let return_value := price / last_price s - 1 in
    (mk (SMAIndicator.update (sma s) price)
        (EMAIndicator.update (ema s) price)
        (VolatilityIndicator.update (volatility s) return_value)
        (VWAPIndicator.update (vwap s) price volume ts)
        price,
     [Divide price (last_price s)]).

Definition update (s : t) (price : float) (volume : Z) (ts : string) : t :=
  fst (update_traced s price volume ts).

(** The [default:] branch of the switch is unreachable: [IndicatorType]
    has these four constructors only. *)
Definition get_indicator (s : t) (type : IndicatorType) : float :=
  match type with
  | SMA => SMAIndicator.get_value (sma s)
  | EMA => EMAIndicator.get_value (ema s)
  | VOLATILITY => VolatilityIndicator.get_value (volatility s)
  | VWAP => VWAPIndicator.get_value (vwap s)
  end.

End Series.

(* ===================================================================== *)
(** * csv.hpp                                                             *)
(* ===================================================================== *)

Record CLIConfig := {
  sma_window : Z;
  ema_span : Z;
  vol_window : Z;
  output_sma : bool;
  output_ema : bool;
  output_vol : bool;
  output_vwap : bool;
  filter_symbol : string;
  input_filename : string;
  vwap_reset_period : string
}.

(** The member initialisers of [CLIConfig]. *)
Definition default_config : CLIConfig :=
  {| sma_window := 20; ema_span := 50; vol_window := 30;
     output_sma := false; output_ema := false;
     output_vol := false; output_vwap := false;
     filter_symbol := ""; input_filename := ""; vwap_reset_period := "" |}.

Record ParsedRow := {
  timestamp : string;
  symbol : string;
  price : float;
  volume : Z;
  is_valid : bool
}.

Definition ParsedRow_invalid : ParsedRow :=
  {| timestamp := ""; symbol := ""; price := 0%float; volume := 0;
     is_valid := false |}.

(** A [const char *] into the buffer of the current line. *)
Inductive char_ptr := Null | Data (offset : nat).

Definition char_ptr_eqb (p q : char_ptr) : bool :=
  match p, q with
  | Null, Null => true
  | Data a, Data b => Nat.eqb a b
  | _, _ => false
  end.

Module FieldRange.
Record t := mk { start : char_ptr; length : nat }.

(** [end()]: [start + length]. *)
Definition end_ (f : t) : char_ptr :=
  match start f with
  | Null => Null
  | Data o => Data (o + length f)
  end.

(** The value-initialised element of [std::array<FieldRange, 4> = {}]. *)
Definition zero : t := mk Null 0.
End FieldRange.

Definition span_to_alpha (span : Z) : float :=
  (2 / (Double.of_Z span + 1))%float.

(** The result of running code that may dereference a null pointer. *)
Inductive outcome (A : Type) :=
| Returns (a : A)
| NullDeref.
Arguments Returns {A} a.
Arguments NullDeref {A}.

Definition bind {A B} (x : outcome A) (f : A -> outcome B) : outcome B :=
  match x with
  | Returns a => f a
  | NullDeref => NullDeref
  end.

(* ===================================================================== *)
(** * The C library conversions used by the row parser                    *)
(* ===================================================================== *)

(** [strtod] and [std::from_chars] are not code of the analyzer; they are
    modelled from the C and C++ standards (C locale, round to nearest). *)
Module CLib.

Definition code (c : ascii) : nat := nat_of_ascii c.

Definition isspace (c : ascii) : bool :=
  (code c =? 32)%nat || ((9 <=? code c)%nat && (code c <=? 13)%nat).

Definition isdigit (c : ascii) : bool :=
  (48 <=? code c)%nat && (code c <=? 57)%nat.

Definition digit_value (c : ascii) : Z := Z.of_nat (code c - 48).

Definition to_lower (c : ascii) : ascii :=
  if (65 <=? code c)%nat && (code c <=? 90)%nat
  then ascii_of_nat (code c + 32) else c.

Definition isalpha (c : ascii) : bool :=
  let l := code (to_lower c) in (97 <=? l)%nat && (l <=? 122)%nat.

Definition isxdigit (c : ascii) : bool :=
  isdigit c ||
  (let l := code (to_lower c) in (97 <=? l)%nat && (l <=? 102)%nat).

Definition xdigit_value (c : ascii) : Z :=
  if isdigit c then digit_value c
  else Z.of_nat (code (to_lower c) - 87).

(** Number of leading characters of [s] that satisfy [p]. *)
Fixpoint span_length (p : ascii -> bool) (s : string) : nat :=
  match s with
  | String c s' => if p c then S (span_length p s') else 0
  | EmptyString => 0
  end.

(** [s] without its first [n] characters. *)
Fixpoint drop_chars (n : nat) (s : string) : string :=
  match n, s with
  | S n', String _ s' => drop_chars n' s'
  | _, _ => s
  end.

(** Value of the first [n] characters of [s] read as digits in [base],
    continuing from [acc]. *)
Fixpoint digits_value (base : Z) (value : ascii -> Z) (n : nat)
         (s : string) (acc : Z) : Z :=
  match n, s with
  | S n', String c s' => digits_value base value n' s' (acc * base + value c)
  | _, _ => acc
  end.

(** Case-insensitive test that [s] begins with the lower-case word [w]. *)
Fixpoint starts_with_ci (w s : string) : bool :=
  match w, s with
  | EmptyString, _ => true
  | String a w', String c s' =>
      Ascii.eqb a (to_lower c) && starts_with_ci w' s'
  | String _ _, EmptyString => false
  end.

(** An optional sign: whether it is a minus, and how many characters. *)
Definition sign_of (s : string) : bool * nat :=
  match s with
  | String "-" _ => (true, 1%nat)
  | String "+" _ => (false, 1%nat)
  | _ => (false, 0%nat)
  end.

(** An optional exponent part introduced by one of the letters accepted by
    [marker]: its value and its length, [(0, 0)] when the letter is not
    followed by an optionally signed, non-empty digit sequence. *)
Definition exponent_part (marker : ascii -> bool) (s : string) : Z * nat :=
  match s with
  | String c s1 =>
      if marker c then
        let '(neg, k) := sign_of s1 in
        let s2 := drop_chars k s1 in
        let d := span_length isdigit s2 in
        match d with
        | O => (0%Z, 0%nat)
        | _ => let v := digits_value 10 digit_value d s2 0 in
               ((if neg then - v else v)%Z, (1 + k + d)%nat)
        end
      else (0%Z, 0%nat)
  | EmptyString => (0%Z, 0%nat)
  end.

(** What a subject sequence denotes: [(-1)^neg * m * base^e] for a decimal
    ([base = 10]) or hexadecimal ([base = 2]) constant with digits [m >= 0],
    an infinity, or a NaN. *)
Inductive literal :=
| Finite (neg : bool) (m : Z) (base : Z) (e : Z)
| Infinite (neg : bool)
| NotANumber.

(** The double nearest to [(-1)^neg * m * 10^e], for [m >= 0]. *)
Definition decimal_to_double (neg : bool) (m e : Z) : float :=
  match m with
  | Zpos p =>
      if (0 <=? e)%Z
      then SF2Prim (binary_normalize prec emax
                      (if neg then - (m * 10 ^ e) else m * 10 ^ e)%Z 0 false)
      else SF2Prim (SFdiv prec emax
                      (S754_finite neg p 0)
                      (S754_finite false (Z.to_pos (10 ^ (- e))) 0))
  | _ => if neg then neg_zero else zero
  end.

(** The double nearest to [(-1)^neg * m * 2^e], for [m >= 0]. *)
Definition binary_to_double (neg : bool) (m e : Z) : float :=
  match m with
  | Zpos _ =>
      SF2Prim (binary_normalize prec emax (if neg then - m else m)%Z e false)
  | _ => if neg then neg_zero else zero
  end.

(** The value [strtod] returns for a literal. *)
Definition literal_value (l : literal) : float :=
  match l with
  | Finite neg m base e =>
      if (base =? 10)%Z then decimal_to_double neg m e
      else binary_to_double neg m e
  | Infinite neg => if neg then neg_infinity else infinity
  | NotANumber => nan
  end.

(** [m * base^e] as a fraction. *)
Definition fraction_of (m base e : Z) : Z * Z :=
  if (0 <=? e)%Z then (m * base ^ e, 1)%Z else (m, base ^ (- e))%Z.

(** Whether the finite double [f] has magnitude [m * base^e] exactly. *)
Definition represents (f : float) (m base e : Z) : bool :=
  match Prim2SF f with
  | S754_zero _ => (m =? 0)%Z
  | S754_finite _ fm fe =>
      let '(n1, d1) := fraction_of (Zpos fm) 2 fe in
      let '(n2, d2) := fraction_of m base e in
      (n1 * d2 =? n2 * d1)%Z
  | _ => false
  end.

(** The least positive normalized double, [DBL_MIN]. *)
Definition DBL_MIN : float := 0x1p-1022%float.

(** Whether [strtod] stores [ERANGE] in [errno]: the value overflows, or it
    underflows. C leaves the report of underflow to the implementation; it
    is modelled as the GNU C library makes it, for a result below [DBL_MIN]
    in magnitude that is not the exact value of the literal. *)
Definition literal_range_error (l : literal) : bool :=
  match l with
  | Finite neg m base e =>
      let v := literal_value l in
      is_infinity v
      || ((abs v <? DBL_MIN)%float && negb (represents v m base e))
  | _ => false
  end.

(** A mantissa [digits [. digits]] over the digit class [p]: the number of
    integer digits, the number of fraction digits, and the length; the
    point counts only when a digit stands on one of its sides. *)
Definition mantissa_shape (p : ascii -> bool) (s : string)
  : nat * nat * nat :=
  let d1 := span_length p s in
  match drop_chars d1 s with
  | String "." s1 =>
      let d2 := span_length p s1 in
      match d1, d2 with
      | O, O => (0, 0, 0)%nat
      | _, _ => (d1, d2, d1 + 1 + d2)%nat
      end
  | _ => (d1, 0%nat, d1)
  end.

(** The digits of a mantissa of the given shape, as one integer. *)
Definition mantissa_value (base : Z) (value : ascii -> Z)
           (d1 d2 : nat) (s : string) : Z :=
  let int_part := digits_value base value d1 s 0 in
  digits_value base value d2 (drop_chars (d1 + 1) s) int_part.

Definition is_exp_e (c : ascii) : bool := Ascii.eqb (to_lower c) "e".
Definition is_exp_p (c : ascii) : bool := Ascii.eqb (to_lower c) "p".

(** A decimal floating constant at the head of [s], with its length; the
    length is zero when there is none. *)
Definition decimal_body (neg : bool) (s : string) : literal * nat :=
  let '(d1, d2, len) := mantissa_shape isdigit s in
  match len with
  | O => (Finite neg 0 10 0, 0%nat)
  | _ =>
      let m := mantissa_value 10 digit_value d1 d2 s in
      let '(e, elen) := exponent_part is_exp_e (drop_chars len s) in
      (Finite neg m 10 (e - Z.of_nat d2), (len + elen)%nat)
  end.

(** A hexadecimal floating constant after its [0x] prefix. *)
Definition hex_body (neg : bool) (s : string) : literal * nat :=
  let '(d1, d2, len) := mantissa_shape isxdigit s in
  match len with
  | O => (Finite neg 0 2 0, 0%nat)
  | _ =>
      let m := mantissa_value 16 xdigit_value d1 d2 s in
      let '(e, elen) := exponent_part is_exp_p (drop_chars len s) in
      (Finite neg m 2 (e - 4 * Z.of_nat d2), (len + elen)%nat)
  end.

Definition is_nchar (c : ascii) : bool :=
  isdigit c || isalpha c || Ascii.eqb c "_".

(** Length of an optional [(n-char-sequence)] after [nan]. *)
Definition nan_payload_length (s : string) : nat :=
  match s with
  | String "(" s1 =>
      let k := span_length is_nchar s1 in
      match drop_chars k s1 with
      | String ")" _ => (k + 2)%nat
      | _ => 0%nat
      end
  | _ => 0%nat
  end.

(** The subject sequence after white space and sign, with its length. *)
Definition strtod_body (neg : bool) (s : string) : literal * nat :=
  if starts_with_ci "infinity" s then (Infinite neg, 8%nat)
  else if starts_with_ci "inf" s then (Infinite neg, 3%nat)
  else if starts_with_ci "nan" s
  then (NotANumber, (3 + nan_payload_length (drop_chars 3 s))%nat)
  else if starts_with_ci "0x" s then
    match hex_body neg (drop_chars 2 s) with
    | (_, O) => decimal_body neg s
    | (l, S k) => (l, (2 + S k)%nat)
    end
  else decimal_body neg s.

(** The literal at the head of [s] after optional white space and sign, and
    the number of characters up to its end; [None] when [s] does not start
    with a subject sequence. *)
Definition strtod_parse (s : string) : option (literal * nat) :=
  let w := span_length isspace s in
  let s1 := drop_chars w s in
  let '(neg, k) := sign_of s1 in
  match strtod_body neg (drop_chars k s1) with
  | (_, O) => None
  | (l, S n) => Some (l, (w + k + S n)%nat)
  end.

(** [strtod(nptr, &end_ptr)] on the string [s] that [nptr] points to: the
    value and the number of characters consumed ([end_ptr - nptr]); when no
    conversion is performed the value is zero and nothing is consumed. *)
Definition strtod_string (s : string) : float * nat :=
  match strtod_parse s with
  | Some (l, n) => (literal_value l, n)
  | None => (zero, 0%nat)
  end.

(** [strtod] on a pointer into [line]; the string it reads runs from the
    pointer to the end of the line. A null pointer is dereferenced. *)
Definition strtod (line : string) (nptr : char_ptr)
  : outcome (float * char_ptr) :=
  match nptr with
  | Null => NullDeref
  | Data o =>
      let '(v, n) := strtod_string (drop_chars o line) in
      Returns (v, Data (o + n))
  end.

Inductive errc := errc_ok | invalid_argument | result_out_of_range.

Definition LONG_MIN : Z := (- 2 ^ 63)%Z.
Definition LONG_MAX : Z := (2 ^ 63 - 1)%Z.

(** [std::from_chars(first, last, value)] for [long], base 10, on the
    characters [s] of the range: an optional minus sign and digits. The
    result is the error code, the value stored (if any) and the number of
    characters consumed. *)
Definition from_chars_long (s : string) : errc * option Z * nat :=
  let '(neg, k) := match s with
                   | String "-" _ => (true, 1%nat)
                   | _ => (false, 0%nat)
                   end in
  let s1 := drop_chars k s in
  let d := span_length isdigit s1 in
  match d with
  | O => (invalid_argument, None, 0%nat)
  | _ =>
      let v := digits_value 10 digit_value d s1 0 in
      let v := (if neg then - v else v)%Z in
      if (LONG_MIN <=? v)%Z && (v <=? LONG_MAX)%Z
      then (errc_ok, Some v, (k + d)%nat)
      else (result_out_of_range, None, (k + d)%nat)
  end.

(** The exceptions of [std::stod] and [std::stol]. *)
Inductive conversion_error := invalid_argument_thrown | out_of_range_thrown.

(** [std::stod(str)]: [strtod] on the characters of [str]; it throws
    [std::invalid_argument] when nothing is converted and
    [std::out_of_range] when [strtod] reports [ERANGE]; characters after the
    number are ignored. *)
Definition stod (str : string) : float + conversion_error :=
  match strtod_parse str with
  | None => inr invalid_argument_thrown
  | Some (l, _) =>
      if literal_range_error l then inr out_of_range_thrown
      else inl (literal_value l)
  end.

(** [std::stol(str)]: [strtol] in base 10 on the characters of [str]:
    optional white space, an optional sign, digits; it throws
    [std::invalid_argument] when there is no digit and [std::out_of_range]
    when the value is not a [long]; characters after the digits are
    ignored. *)
Definition stol (str : string) : Z + conversion_error :=
  let s1 := drop_chars (span_length isspace str) str in
  let '(neg, k) := sign_of s1 in
  let s2 := drop_chars k s1 in
  let d := span_length isdigit s2 in
  match d with
  | O => inr invalid_argument_thrown
  | _ =>
      let v := digits_value 10 digit_value d s2 0 in
      let v := (if neg then - v else v)%Z in
      if (LONG_MIN <=? v)%Z && (v <=? LONG_MAX)%Z
      then inl v
      else inr out_of_range_thrown
  end.

End CLib.

(* ===================================================================== *)
(** * analyzer.cpp: tokenizer                                             *)
(* ===================================================================== *)

(** The local variables of [split_csv_line] that the loop changes. *)
Record split_state := {
  fields : list FieldRange.t;
  field_index : nat;
  start : nat
}.

(** The body of the [if] inside the loop, at index [i]. *)
Definition store_field (st : split_state) (i : nat) : split_state :=
  {| fields := <[field_index st := FieldRange.mk (Data (start st)) (i - start st)]>
                 (fields st);
     field_index := S (field_index st);
     start := S i |}.

(** The loop [for (i = 0; i <= line.length() && field_index < 4; ++i)],
    entered at index [i] with [rest] the characters [line[i..]]: [rest] is
    empty exactly when [i == line.length()], which is the last iteration. *)
Fixpoint split_loop (rest : string) (i : nat) (st : split_state)
  : split_state :=
  if (field_index st <? 4)%nat then
    match rest with
    | EmptyString => store_field st i
    | String c rest' =>
        split_loop rest' (S i)
          (if Ascii.eqb c "," then store_field st i else st)
    end
  else st.

Definition split_csv_line (line : string) : list FieldRange.t :=
  fields (split_loop line 0
            {| fields := replicate 4 FieldRange.zero;
               field_index := 0;
               start := 0 |}).

(** [fields[k]] for [k < 4]. *)
Definition field_at (fs : list FieldRange.t) (k : nat) : FieldRange.t :=
  nth k fs FieldRange.zero.

(** [std::string(f.start, f.length)]; for the null range of length zero
    this is the empty string. *)
Definition field_string (line : string) (f : FieldRange.t) : string :=
  match FieldRange.start f with
  | Null => EmptyString
  | Data o => substring o (FieldRange.length f) line
  end.

(* ===================================================================== *)
(** * analyzer.cpp: row parser, registry and driver                       *)
(* ===================================================================== *)

(** One value handed to the output stream. Rendering a value as text
    ([std::to_string], [operator<<]) is left to the stream. *)
Inductive cell :=
| Text (s : string)
| Real (d : float)
| Whole (z : Z).

(** What the analyzer owns during a run: the registry and the rows written
    to standard output so far. *)
Record analyzer_state := {
  symbol_data : gmap string Series.t;
  written : list (list cell)
}.

Definition initial_state : analyzer_state :=
  {| symbol_data := ∅; written := [] |}.

(** [get_or_create_series]: the registry after the call and the entry the
    returned reference designates. *)
Definition get_or_create_series (config : CLIConfig)
           (data : gmap string Series.t) (sym : string)
  : gmap string Series.t * Series.t :=
  match data !! sym with
  | Some s => (data, s)
  | None =>
      let ema_alpha := span_to_alpha (ema_span config) in
      let s := Series.make (sma_window config) ema_alpha (vol_window config) in
      (<[sym := s]> data, s)
  end.

(** The analyzer of [src/analyzer.cpp] under the [src] directory, with the
    headers of [include/]. *)
Module SrcAnalyzer.

Definition parse_line (line : string) : outcome ParsedRow :=
  let fields := split_csv_line line in
  if negb (length fields =? 4)%nat then Returns ParsedRow_invalid
  else
    let timestamp := field_string line (field_at fields 0) in
    let symbol := field_string line (field_at fields 1) in
    bind (CLib.strtod line (FieldRange.start (field_at fields 2)))
      (fun '(price, end_ptr) =>
         if char_ptr_eqb end_ptr (FieldRange.start (field_at fields 2))
            || negb (char_ptr_eqb end_ptr
                       (FieldRange.end_ (field_at fields 2)))
         then Returns ParsedRow_invalid
         else
           match CLib.from_chars_long
                   (field_string line (field_at fields 3)) with
           | (CLib.errc_ok, Some volume, _) =>
               Returns {| timestamp := timestamp; symbol := symbol;
                          price := price; volume := volume;
                          is_valid := true |}
           | _ => Returns ParsedRow_invalid
           end).

(** The comma-separated column names of the header line. *)
Definition print_csv_header (config : CLIConfig) : list string :=
  ["timestamp"; "symbol"; "price"; "volume"]
  ++ (if output_sma config then ["sma"] else [])
  ++ (if output_ema config then ["ema"] else [])
  ++ (if output_vol config then ["volatility"] else [])
  ++ (if output_vwap config then ["vwap"] else []).

Definition print_csv_row (config : CLIConfig) (row : ParsedRow)
           (series : Series.t) : list cell :=
  [Text (timestamp row); Text (symbol row);
   Real (price row); Whole (volume row)]
  ++ (if output_sma config
      then [Real (Series.get_indicator series SMA)] else [])
  ++ (if output_ema config
      then [Real (Series.get_indicator series EMA)] else [])
  ++ (if output_vol config
      then [Real (Series.get_indicator series VOLATILITY)] else [])
  ++ (if output_vwap config
      then [Real (Series.get_indicator series VWAP)] else []).

(** One iteration of the [while (std::getline(file, line))] loop. *)
Definition process_line (config : CLIConfig) (st : analyzer_state)
           (line : string) : outcome analyzer_state :=
  if String.eqb line "" then Returns st
  else
    bind (parse_line line) (fun parsed_row =>
      if negb (is_valid parsed_row) then Returns st
      else if negb (String.eqb (filter_symbol config) "")
              && negb (String.eqb (symbol parsed_row) (filter_symbol config))
      then Returns st
      else
        let '(data, series) :=
          get_or_create_series config (symbol_data st) (symbol parsed_row) in
        let series' :=
          Series.update series (price parsed_row) (volume parsed_row)
                        (timestamp parsed_row) in
        Returns {| symbol_data := <[symbol parsed_row := series']> data;
                   written := written st
                              ++ [print_csv_row config parsed_row series'] |}).

(** The loop over the lines of the file. *)
Fixpoint process_lines (config : CLIConfig) (st : analyzer_state)
         (lines : list string) : outcome analyzer_state :=
  match lines with
  | [] => Returns st
  | line :: rest =>
      bind (process_line config st line)
           (fun st' => process_lines config st' rest)
  end.

(** [process_file] on a file that opens and holds [lines]: the data rows
    written after the header, and the final registry. *)
Definition process_file (config : CLIConfig) (lines : list string)
  : outcome analyzer_state :=
  process_lines config initial_state lines.

End SrcAnalyzer.

(** The analyzer of [analyzer.cpp] at the top of the tree, with the headers
    next to it. Its tokenizer and registry read as those above; its row
    parser converts with [std::stod] and [std::stol] inside a [try] block,
    and its printers write straight to [std::cout]. *)
Module RootAnalyzer.

(** An exception of either conversion is caught and gives the invalid row.
    The strings are built before the conversions run; building one from the
    null span of length zero gives the empty string. *)
Definition parse_line (line : string) : ParsedRow :=
  let fields := split_csv_line line in
  if negb (length fields =? 4)%nat then ParsedRow_invalid
  else
    let timestamp := field_string line (field_at fields 0) in
    let symbol := field_string line (field_at fields 1) in
    let price_str := field_string line (field_at fields 2) in
    let volume_str := field_string line (field_at fields 3) in
    match CLib.stod price_str with
    | inr _ => ParsedRow_invalid
    | inl price =>
        match CLib.stol volume_str with
        | inr _ => ParsedRow_invalid
        | inl volume =>
            {| timestamp := timestamp; symbol := symbol;
               price := price; volume := volume; is_valid := true |}
        end
    end.

(** The header line; its first four names are one string literal, written
    with a blank after each comma. *)
Definition print_csv_header (config : CLIConfig) : list string :=
  ["timestamp"; " symbol"; " price"; " volume"]
  ++ (if output_sma config then ["sma"] else [])
  ++ (if output_ema config then ["ema"] else [])
  ++ (if output_vol config then ["volatility"] else [])
  ++ (if output_vwap config then ["vwap"] else []).

Definition print_csv_row (config : CLIConfig) (row : ParsedRow)
           (series : Series.t) : list cell :=
  [Text (timestamp row); Text (symbol row);
   Real (price row); Whole (volume row)]
  ++ (if output_sma config
      then [Real (Series.get_indicator series SMA)] else [])
  ++ (if output_ema config
      then [Real (Series.get_indicator series SMA)] else [])
  ++ (if output_vol config
      then [Real (Series.get_indicator series VOLATILITY)] else [])
  ++ (if output_vwap config
      then [Real (Series.get_indicator series VWAP)] else []).

(** One iteration of the [while (std::getline(file, line))] loop. *)
Definition process_line (config : CLIConfig) (st : analyzer_state)
           (line : string) : analyzer_state :=
  if String.eqb line "" then st
  else
    let parsed_row := parse_line line in
    if negb (is_valid parsed_row) then st
    else if negb (String.eqb (filter_symbol config) "")
            && negb (String.eqb (symbol parsed_row) (filter_symbol config))
    then st
    else
      let '(data, series) :=
        get_or_create_series config (symbol_data st) (symbol parsed_row) in
      let series' :=
        Series.update series (price parsed_row) (volume parsed_row)
                      (timestamp parsed_row) in
      {| symbol_data := <[symbol parsed_row := series']> data;
         written := written st
                    ++ [print_csv_row config parsed_row series'] |}.

(** [process_file] on a file that opens and holds [lines]. *)
Definition process_file (config : CLIConfig) (lines : list string)
  : analyzer_state :=
  fold_left (process_line config) lines initial_state.

End RootAnalyzer.

(** The cell of [row] under the header column [name]. *)
Fixpoint column_value (header : list string) (row : list cell) (name : string)
  : option cell :=
  match header, row with
  | h :: header', c :: row' =>
      if String.eqb h name then Some c else column_value header' row' name
  | _, _ => None
  end.

(* ===================================================================== *)
(** * Vocabulary of the specification                                     *)
(* ===================================================================== *)

(** The [n] most recent elements of a stream [l], oldest first. *)
Definition most_recent {A} (n : nat) (l : list A) : list A :=
  skipn (length l - n) l.

(** Arithmetic mean of a non-empty list of doubles, summed in order. *)
Definition mean (l : list float) : float :=
  (Double.accumulate l 0 / Double.of_nat (length l))%float.

(** Sample standard deviation with Bessel's correction:
    [sqrt (sum ((r - mean)^2) / (count - 1))]. *)
Definition sample_stddev (l : list float) : float :=
  let m := mean l in
  let squares := map (fun r => ((r - m) * (r - m))%float) l in
  PrimFloat.sqrt (Double.accumulate squares 0 / Double.of_nat (length l - 1)).

(** An indicator after a stream of inputs. *)
Definition SMA_feed (s : SMAIndicator.t) (ps : list float) : SMAIndicator.t :=
  fold_left SMAIndicator.update ps s.

Definition Volatility_feed (s : VolatilityIndicator.t) (rs : list float)
  : VolatilityIndicator.t :=
  fold_left VolatilityIndicator.update rs s.

(** One call of [Series::update]: price, volume, timestamp. *)
Definition trade : Type := float * Z * string.

(** A sequence of [Series::update] calls, with every division evaluated on
    the way. *)
Fixpoint Series_run_traced (s : Series.t) (calls : list trade)
  : Series.t * list Series.event :=
  match calls with
  | [] => (s, [])
  | (p, v, ts) :: rest =>
      let '(s1, ev1) := Series.update_traced s p v ts in
      let '(s2, ev2) := Series_run_traced s1 rest in
      (s2, ev1 ++ ev2)
  end.

Definition nonzero_divisor (e : Series.event) : Prop :=
  match e with
  | Series.Divide _ d => (d =? 0)%float = false
  end.

(** Number of commas of a line. *)
Fixpoint commas (s : string) : nat :=
  match s with
  | EmptyString => 0
  | String c s' => (if Ascii.eqb c "," then 1 else 0) + commas s'
  end.

Fixpoint comma_free (s : string) : Prop :=
  match s with
  | EmptyString => True
  | String c s' => c <> ","%char /\ comma_free s'
  end.

(** The pieces of a line between its commas: one more than it has commas. *)
Fixpoint split_commas (s : string) : list string :=
  match s with
  | EmptyString => [EmptyString]
  | String c s' =>
      if Ascii.eqb c "," then EmptyString :: split_commas s'
      else match split_commas s' with
           | p :: ps => String c p :: ps
           | [] => [String c EmptyString]
           end
  end.

(** The pieces written one after the other with a comma between them. *)
Definition join_commas (pieces : list string) : string :=
  String.concat "," pieces.

(** The spans of consecutive pieces of a line, the first one at offset [o]:
    each span starts one past the comma that ends the span before it. *)
Fixpoint spans_of (o : nat) (pieces : list string) : list FieldRange.t :=
  match pieces with
  | [] => []
  | p :: ps =>
      FieldRange.mk (Data o) (String.length p)
      :: spans_of (o + String.length p + 1) ps
  end.

(** An array of four spans of which only the first are written. *)
Definition pad_fields (spans : list FieldRange.t) : list FieldRange.t :=
  spans ++ replicate (4 - length spans) FieldRange.zero.

(** The configuration [parse_cli_args] builds from the flag [--sma=2]. *)
Definition sma2_config : CLIConfig :=
  {| sma_window := 2; ema_span := 50; vol_window := 30;
     output_sma := true; output_ema := false;
     output_vol := false; output_vwap := false;
     filter_symbol := ""; input_filename := ""; vwap_reset_period := "" |}.

(** The three lines of the end-to-end scenario. *)
Definition scenario_lines : list string :=
  ["2023-09-15 09:30:00,AAPL,150.00,1000";
   "2023-09-15 09:30:30,AAPL,150.30,1000";
   "2023-09-15 09:31:00,AAPL,150.60,1000"].

(** The row a scenario line parses to. *)
Definition scenario_row (ts : string) (p : float) : ParsedRow :=
  {| timestamp := ts; symbol := "AAPL"; price := p; volume := 1000;
     is_valid := true |}.

(** The configuration [parse_cli_args] builds from [--ema=1]. *)
Definition ema1_config : CLIConfig :=
  {| sma_window := 20; ema_span := 1; vol_window := 30;
     output_sma := false; output_ema := true;
     output_vol := false; output_vwap := false;
     filter_symbol := ""; input_filename := ""; vwap_reset_period := "" |}.

Definition ema1_lines : list string :=
  ["2024-01-02 09:30:00,AAPL,100,10";
   "2024-01-02 09:31:00,AAPL,110,10";
   "2024-01-02 09:32:00,AAPL,140,10"].

(** The series of the symbol after these rows, priced 100, 110 and 140,
    and the last of the rows. *)
Definition ema1_series : Series.t :=
  Series.update
    (Series.update
       (Series.update
          (Series.make (sma_window ema1_config)
             (span_to_alpha (ema_span ema1_config))
             (vol_window ema1_config))
          100 10 "2024-01-02 09:30:00")
       110 10 "2024-01-02 09:31:00")
    140 10 "2024-01-02 09:32:00".

Definition ema1_row : ParsedRow :=
  {| timestamp := "2024-01-02 09:32:00"; symbol := "AAPL";
     price := 140; volume := 10; is_valid := true |}.

(** The configuration [parse_cli_args] builds from [--symbol=AAPL]. *)
Definition aapl_only_config : CLIConfig :=
  {| sma_window := 20; ema_span := 50; vol_window := 30;
     output_sma := false; output_ema := false;
     output_vol := false; output_vwap := false;
     filter_symbol := "AAPL"; input_filename := "";
     vwap_reset_period := "" |}.

(* ===================================================================== *)
(** * csv.hpp: command line, and the entry points                         *)
(* ===================================================================== *)

(** The least [int]. *)
Definition INT_MIN : Z := (- 2 ^ 31)%Z.

(** [std::stoi(str)]: [strtol] in base 10 as for [std::stol], with
    [std::out_of_range] when the value is not an [int]. *)
Definition stoi (str : string) : Z + CLib.conversion_error :=
  let s1 := CLib.drop_chars (CLib.span_length CLib.isspace str) str in
  let '(neg, k) := CLib.sign_of s1 in
  let s2 := CLib.drop_chars k s1 in
  let d := CLib.span_length CLib.isdigit s2 in
  match d with
  | O => inr CLib.invalid_argument_thrown
  | _ =>
      let v := CLib.digits_value 10 CLib.digit_value d s2 0 in
      let v := (if neg then - v else v)%Z in
      if (INT_MIN <=? v)%Z && (v <=? INT_MAX)%Z
      then inl v
      else inr CLib.out_of_range_thrown
  end.

(** [arg.find(c)]: the index of the first [c], [npos] as [None]. *)
Fixpoint find_char (c : ascii) (s : string) : option nat :=
  match s with
  | EmptyString => None
  | String x s' =>
      if Ascii.eqb x c then Some 0
      else match find_char c s' with
           | Some i => Some (S i)
           | None => None
           end
  end.

(** What [parse_cli_args] throws. *)
Inductive cli_exception :=
| conversion_failed (e : CLib.conversion_error)
| vwap_only_daily
| unknown_key (key : string)
| invalid_flag_format (arg : string).

(** The chain of [if (key == ...)] of [parse_cli_args], the same in both
    headers. *)
Definition set_flag (config : CLIConfig) (key value : string)
  : CLIConfig + cli_exception :=
  if String.eqb key "sma" then
    match stoi value with
    | inl n =>
        inl {| sma_window := n; ema_span := ema_span config;
               vol_window := vol_window config;
               output_sma := true; output_ema := output_ema config;
               output_vol := output_vol config;
               output_vwap := output_vwap config;
               filter_symbol := filter_symbol config;
               input_filename := input_filename config;
               vwap_reset_period := vwap_reset_period config |}
    | inr e => inr (conversion_failed e)
    end
  else if String.eqb key "ema" then
    match stoi value with
    | inl n =>
        inl {| sma_window := sma_window config; ema_span := n;
               vol_window := vol_window config;
               output_sma := output_sma config; output_ema := true;
               output_vol := output_vol config;
               output_vwap := output_vwap config;
               filter_symbol := filter_symbol config;
               input_filename := input_filename config;
               vwap_reset_period := vwap_reset_period config |}
    | inr e => inr (conversion_failed e)
    end
  else if String.eqb key "vol" then
    match stoi value with
    | inl n =>
        inl {| sma_window := sma_window config; ema_span := ema_span config;
               vol_window := n;
               output_sma := output_sma config;
               output_ema := output_ema config; output_vol := true;
               output_vwap := output_vwap config;
               filter_symbol := filter_symbol config;
               input_filename := input_filename config;
               vwap_reset_period := vwap_reset_period config |}
    | inr e => inr (conversion_failed e)
    end
  else if String.eqb key "symbol" then
    inl {| sma_window := sma_window config; ema_span := ema_span config;
           vol_window := vol_window config;
           output_sma := output_sma config; output_ema := output_ema config;
           output_vol := output_vol config;
           output_vwap := output_vwap config;
           filter_symbol := value;
           input_filename := input_filename config;
           vwap_reset_period := vwap_reset_period config |}
  else if String.eqb key "vwap" then
    if String.eqb value "daily" then
      inl {| sma_window := sma_window config; ema_span := ema_span config;
             vol_window := vol_window config;
             output_sma := output_sma config;
             output_ema := output_ema config;
             output_vol := output_vol config; output_vwap := true;
             filter_symbol := filter_symbol config;
             input_filename := input_filename config;
             vwap_reset_period := vwap_reset_period config |}
    else inr vwap_only_daily
  else inr (unknown_key key).

(** [config.input_filename = arg]. *)
Definition set_input_filename (config : CLIConfig) (arg : string)
  : CLIConfig :=
  {| sma_window := sma_window config; ema_span := ema_span config;
     vol_window := vol_window config;
     output_sma := output_sma config; output_ema := output_ema config;
     output_vol := output_vol config; output_vwap := output_vwap config;
     filter_symbol := filter_symbol config;
     input_filename := arg;
     vwap_reset_period := vwap_reset_period config |}.

(** The key and the value of a flag whose first [=] is at [eq_pos]:
    [arg.substr(2, eq_pos - 2)] and [arg.substr(eq_pos + 1)]. *)
Definition flag_key (arg : string) (eq_pos : nat) : string :=
  substring 2 (eq_pos - 2) arg.

Definition flag_value (arg : string) (eq_pos : nat) : string :=
  CLib.drop_chars (eq_pos + 1) arg.

(** [include/csv.hpp]. The arguments are [argv[1]] to [argv[argc - 1]]. *)
Module IncludeCsv.

Definition is_flag (arg : string) : bool :=
  (2 <=? String.length arg)%nat && String.eqb (substring 0 2 arg) "--".

Fixpoint parse_args (config : CLIConfig) (args : list string)
  : CLIConfig + cli_exception :=
  match args with
  | [] => inl config
  | arg :: rest =>
      if is_flag arg then
        match find_char "=" arg with
        | Some eq_pos =>
            match set_flag config (flag_key arg eq_pos)
                    (flag_value arg eq_pos) with
            | inl config' => parse_args config' rest
            | inr e => inr e
            end
        | None => inr (invalid_flag_format arg)
        end
      else parse_args (set_input_filename config arg) rest
  end.

Definition parse_cli_args (args : list string) : CLIConfig + cli_exception :=
  parse_args default_config args.

End IncludeCsv.

(** [csv.hpp] at the top of the tree: a flag without [=] is passed over. *)
Module RootCsv.

(** [arg.starts_with("--")]. *)
Definition is_flag (arg : string) : bool := String.prefix "--" arg.

Fixpoint parse_args (config : CLIConfig) (args : list string)
  : CLIConfig + cli_exception :=
  match args with
  | [] => inl config
  | arg :: rest =>
      if is_flag arg then
        match find_char "=" arg with
        | Some eq_pos =>
            match set_flag config (flag_key arg eq_pos)
                    (flag_value arg eq_pos) with
            | inl config' => parse_args config' rest
            | inr e => inr e
            end
        | None => parse_args config rest
        end
      else parse_args (set_input_filename config arg) rest
  end.

Definition parse_cli_args (args : list string) : CLIConfig + cli_exception :=
  parse_args default_config args.

End RootCsv.

(** What a run of [main] leaves: its return value, and on standard output
    the header (when it got that far) and the data rows. *)
Record run := {
  exit_code : Z;
  header : option (list string);
  rows : list (list cell)
}.

Definition failed_run : run :=
  {| exit_code := 1; header := None; rows := [] |}.

(** [main] of [src/analyzer.cpp]. [open] is the file system: the lines of
    the file of a name, or [None] when it cannot be opened. Every exception
    is caught and gives the return value 1. *)
Definition src_main (args : list string)
           (open : string -> option (list string)) : outcome run :=
  match IncludeCsv.parse_cli_args args with
  | inr _ => Returns failed_run
  | inl config =>
      if String.eqb (input_filename config) "" then Returns failed_run
      else
        match open (input_filename config) with
        | None => Returns failed_run
        | Some lines =>
            bind (SrcAnalyzer.process_file config lines) (fun st =>
              Returns {| exit_code := 0;
                         header := Some (SrcAnalyzer.print_csv_header config);
                         rows := written st |})
        end
  end.

(** [main] of [analyzer.cpp] at the top of the tree: its [process_file]
    returns nothing, so a file that cannot be opened does not change the
    return value. *)
Definition root_main (args : list string)
           (open : string -> option (list string)) : run :=
  match RootCsv.parse_cli_args args with
  | inr _ => failed_run
  | inl config =>
      if String.eqb (input_filename config) "" then failed_run
      else
        match open (input_filename config) with
        | None => {| exit_code := 0; header := None; rows := [] |}
        | Some lines =>
            {| exit_code := 0;
               header := Some (RootAnalyzer.print_csv_header config);
               rows := written (RootAnalyzer.process_file config lines) |}
        end
  end.

(* ===================================================================== *)
(** * Streams of inputs                                                   *)
(* ===================================================================== *)

Definition EMA_feed (s : EMAIndicator.t) (ps : list float) : EMAIndicator.t :=
  fold_left EMAIndicator.update ps s.

(** The recursion of the exponential average. *)
Definition ema_step (alpha cur p : float) : float :=
  (alpha * p + (1 - alpha) * cur)%float.

Definition trade_price (c : trade) : float := fst (fst c).
Definition trade_volume (c : trade) : Z := snd (fst c).
Definition trade_timestamp (c : trade) : string := snd c.

Definition VWAP_feed (s : VWAPIndicator.t) (calls : list trade)
  : VWAPIndicator.t :=
  fold_left (fun s c => VWAPIndicator.update s (trade_price c)
                          (trade_volume c) (trade_timestamp c)) calls s.

Definition Series_feed (s : Series.t) (calls : list trade) : Series.t :=
  fold_left (fun s c => Series.update s (trade_price c) (trade_volume c)
                          (trade_timestamp c)) calls s.

(** The returns of a stream of prices that follows the price [prev]. *)
Fixpoint returns_from (prev : float) (ps : list float) : list float :=
  match ps with
  | [] => []
  | p :: ps' => (p / prev - 1)%float :: returns_from p ps'
  end.

(** A series built by [get_or_create_series] under [config] keeps the
    parameters of [config] and never holds more prices or returns than its
    windows allow. *)
Definition series_configured (config : CLIConfig) (s : Series.t) : Prop :=
  SMAIndicator.window_size (Series.sma s) = sma_window config /\
  EMAIndicator.alpha (Series.ema s) = span_to_alpha (ema_span config) /\
  VolatilityIndicator.window_size (Series.volatility s)
  = to_size_t (vol_window config) /\
  (Z.of_nat (length (SMAIndicator.prices (Series.sma s)))
   <= to_size_t (sma_window config))%Z /\
  (Z.of_nat (length (VolatilityIndicator.returns (Series.volatility s)))
   <= to_size_t (vol_window config))%Z.

(** The step of the driver loop on a row that passed the tests: fetch or
    create the series, update it, print the row with [print]. *)
Definition accept_row (print : CLIConfig -> ParsedRow -> Series.t -> list cell)
           (config : CLIConfig) (st : analyzer_state) (row : ParsedRow)
  : analyzer_state :=
  let '(data, series) :=
    get_or_create_series config (symbol_data st) (symbol row) in
  let series' :=
    Series.update series (price row) (volume row) (timestamp row) in
  {| symbol_data := <[symbol row := series']> data;
     written := written st ++ [print config row series'] |}.

(** Whether the driver loop passes a row on to the registry. *)
Definition passes (config : CLIConfig) (row : ParsedRow) : bool :=
  is_valid row
  && (String.eqb (filter_symbol config) ""
      || String.eqb (symbol row) (filter_symbol config)).

(** The series [get_or_create_series] creates. *)
Definition fresh_series (config : CLIConfig) : Series.t :=
  Series.make (sma_window config) (span_to_alpha (ema_span config))
    (vol_window config).

(** The rows a run passes on to the registry, in the order of the lines. *)
Definition src_accepted (config : CLIConfig) (lines : list string)
  : list ParsedRow :=
  flat_map (fun line =>
              if String.eqb line "" then []
              else match SrcAnalyzer.parse_line line with
                   | Returns row => if passes config row then [row] else []
                   | NullDeref => []
                   end) lines.

Definition root_accepted (config : CLIConfig) (lines : list string)
  : list ParsedRow :=
  flat_map (fun line =>
              if String.eqb line "" then []
              else if passes config (RootAnalyzer.parse_line line)
                   then [RootAnalyzer.parse_line line] else []) lines.

(** The first four cells of an output row. *)
Definition echo (row : ParsedRow) : list cell :=
  [Text (timestamp row); Text (symbol row);
   Real (price row); Whole (volume row)].

(** The trades of one symbol among rows. *)
Definition trades_of (sym : string) (rows : list ParsedRow) : list trade :=
  map (fun row => (price row, volume row, timestamp row))
      (List.filter (fun row => String.eqb (symbol row) sym) rows).

(** The shape of an output row: the echo of a row, then reals. *)
Definition row_shaped (n : nat) (cells : list cell) : Prop :=
  length cells = n /\
  exists row reals, cells = echo row ++ map Real reals.

(** The row [parse_line] under [src/] builds from the texts of the first
    four fields of a line. *)
Definition src_row_of_fields (ts sym p v : string) : ParsedRow :=
  match CLib.strtod_string p, CLib.from_chars_long v with
  | (x, n), (CLib.errc_ok, Some vol, _) =>
      if (n =? 0)%nat || negb (n =? String.length p)%nat
      then ParsedRow_invalid
      else {| timestamp := ts; symbol := sym; price := x; volume := vol;
              is_valid := true |}
  | _, _ => ParsedRow_invalid
  end.

(** The row [parse_line] at the top of the tree builds from them. *)
Definition root_row_of_fields (ts sym p v : string) : ParsedRow :=
  match CLib.stod p, CLib.stol v with
  | inl x, inl vol =>
      {| timestamp := ts; symbol := sym; price := x; volume := vol;
         is_valid := true |}
  | _, _ => ParsedRow_invalid
  end.

(** The keys of the flags that carry a value among the arguments, for the
    test [is_flag] a header uses. *)
Definition flag_keys (is_flag : string -> bool) (args : list string)
  : list string :=
  flat_map (fun arg =>
              if is_flag arg then
                match find_char "=" arg with
                | Some eq_pos => [flag_key arg eq_pos]
                | None => []
                end
              else []) args.

(** The arguments that are not flags. *)
Definition file_arguments (is_flag : string -> bool) (args : list string)
  : list string :=
  List.filter (fun arg => negb (is_flag arg)) args.

(** The flags without a value. *)
Definition valueless (is_flag : string -> bool) (arg : string) : bool :=
  is_flag arg && negb (bool_decide (is_Some (find_char "=" arg))).

(** The flag that switches the column of an indicator on, and the switch. *)
Definition flag_of (t : IndicatorType) : string :=
  match t with
  | SMA => "sma"
  | EMA => "ema"
  | VOLATILITY => "vol"
  | VWAP => "vwap"
  end.

Definition output_of (config : CLIConfig) (t : IndicatorType) : bool :=
  match t with
  | SMA => output_sma config
  | EMA => output_ema config
  | VOLATILITY => output_vol config
  | VWAP => output_vwap config
  end.

(* ===================================================================== *)
(** * Sliding windows                                                     *)
(* ===================================================================== *)

Section Window.
Context {A : Type}.
Implicit Types (l : list A) (x : A) (n : nat).

Lemma most_recent_all n l : length l <= n -> most_recent n l = l.
Proof.
  intros Hle. unfold most_recent.
  replace (length l - n) with 0 by lia. reflexivity.
Qed.

Lemma most_recent_length n l : length (most_recent n l) = Nat.min n (length l).
Proof. unfold most_recent. rewrite length_skipn. lia. Qed.

Lemma tail_snoc l x : l <> [] -> tail (l ++ [x]) = tail l ++ [x].
Proof. destruct l; [congruence | reflexivity]. Qed.

Lemma tail_skipn k l : tail (skipn k l) = skipn (S k) l.
Proof.
  revert l. induction k as [|k IH]; intros [|a l]; cbn [skipn tail];
    try reflexivity.
  apply IH.
Qed.

(** Pushing at the back and evicting the front when the window overflows
    keeps exactly the most recent [n] elements. *)
Lemma most_recent_snoc n l x :
  most_recent n (l ++ [x]) =
  let pushed := most_recent n l ++ [x] in
  if (n <? length pushed)%nat then tail pushed else pushed.
Proof.
  cbn zeta. rewrite length_app, most_recent_length. cbn [length].
  unfold most_recent. rewrite length_app. cbn [length].
  destruct (Nat.ltb_spec n (Nat.min n (length l) + 1)) as [Hfull|Hroom].
  - assert (Hn : n <= length l) by lia.
    destruct (Nat.eq_dec n 0) as [->|Hpos].
    + rewrite Nat.sub_0_r.
      rewrite !skipn_all2 by (rewrite ?length_app; cbn [length]; lia).
      reflexivity.
    + rewrite tail_snoc.
      * rewrite tail_skipn.
        replace (length l + 1 - n) with (S (length l - n)) by lia.
        rewrite skipn_app.
        replace (S (length l - n) - length l) with 0 by lia.
        reflexivity.
      * intros Hnil. apply (f_equal (@length A)) in Hnil.
        rewrite length_skipn in Hnil. cbn in Hnil. lia.
  - replace (length l + 1 - n) with 0 by lia.
    replace (length l - n) with 0 by lia. reflexivity.
Qed.

End Window.

(* ===================================================================== *)
(** * SMA                                                                 *)
(* ===================================================================== *)

(** Closes the step of a window invariant once the state's list and
    capacity are rewritten: the test on [Z] and the test on [nat] agree. *)
Ltac window_step n pushed :=
  destruct (Z.ltb_spec (Z.of_nat n) (Z.of_nat (length pushed)));
  destruct (Nat.ltb_spec n (length pushed));
  try lia; reflexivity.

Lemma to_size_t_id z : (0 <= z < 2 ^ 64)%Z -> to_size_t z = z.
Proof. intros H. unfold to_size_t. apply Z.mod_small. exact H. Qed.

Lemma SMA_update_window_size s p :
  SMAIndicator.window_size (SMAIndicator.update s p) = SMAIndicator.window_size s.
Proof. unfold SMAIndicator.update. destruct (_ <? _)%Z; reflexivity. Qed.

(** One update keeps the window invariant. *)
Lemma SMA_update_window (n : nat) s hist p :
  to_size_t (SMAIndicator.window_size s) = Z.of_nat n ->
  SMAIndicator.prices s = most_recent n hist ->
  SMAIndicator.prices (SMAIndicator.update s p) = most_recent n (hist ++ [p]).
Proof.
  intros Hw Hp. rewrite most_recent_snoc. cbn zeta.
  unfold SMAIndicator.update. rewrite Hw, Hp.
  window_step n (most_recent n hist ++ [p]).
Qed.

Lemma SMA_feed_window (n : nat) ps : forall s hist,
  to_size_t (SMAIndicator.window_size s) = Z.of_nat n ->
  SMAIndicator.prices s = most_recent n hist ->
  SMAIndicator.prices (SMA_feed s ps) = most_recent n (hist ++ ps).
Proof.
  induction ps as [|p ps IH]; intros s hist Hw Hp; cbn [SMA_feed fold_left].
  - rewrite app_nil_r. exact Hp.
  - change (fold_left SMAIndicator.update ps (SMAIndicator.update s p))
      with (SMA_feed (SMAIndicator.update s p) ps).
    replace (hist ++ p :: ps) with ((hist ++ [p]) ++ ps)
      by (rewrite <- app_assoc; reflexivity).
    apply IH.
    + rewrite SMA_update_window_size. exact Hw.
    + apply SMA_update_window; assumption.
Qed.

Lemma SMA_get_value_mean s :
  SMAIndicator.prices s <> [] ->
  SMAIndicator.get_value s = mean (SMAIndicator.prices s).
Proof.
  unfold SMAIndicator.get_value, mean.
  destruct (SMAIndicator.prices s); [congruence | reflexivity].
Qed.

(** C5. For every window size [N >= 1] (an [int]), an SMA fed the prices
    [ps] retains the [N] most recent of them; its value is [0.0] when no
    price was fed, the mean of all the prices fed when there are at most [N]
    of them, and the mean of the [N] most recent ones when there are more. *)
Theorem SMA_value_is_mean_of_window (N : Z) (ps : list float) :
  (1 <= N <= INT_MAX)%Z ->
  let s := SMA_feed (SMAIndicator.make N) ps in
  SMAIndicator.prices s = most_recent (Z.to_nat N) ps /\
  (ps = [] -> SMAIndicator.get_value s = 0%float) /\
  (1 <= length ps <= Z.to_nat N -> SMAIndicator.get_value s = mean ps) /\
  (Z.to_nat N < length ps ->
   length (most_recent (Z.to_nat N) ps) = Z.to_nat N /\
   SMAIndicator.get_value s = mean (most_recent (Z.to_nat N) ps)).
Proof.
  intros HN s. unfold INT_MAX in HN.
  assert (Hs : SMAIndicator.prices s = most_recent (Z.to_nat N) ps).
  { subst s. change ps with ([] ++ ps) at 2.
    apply SMA_feed_window; [|reflexivity].
    cbn [SMAIndicator.make SMAIndicator.window_size].
    rewrite to_size_t_id by lia. lia. }
  split; [exact Hs|]. split; [|split].
  - intros ->. reflexivity.
  - intros Hk. rewrite SMA_get_value_mean; rewrite Hs, most_recent_all by lia.
    + reflexivity.
    + destruct ps; [cbn in Hk; lia | congruence].
  - intros Hk. split; [rewrite most_recent_length; lia|].
    rewrite SMA_get_value_mean; rewrite Hs; [reflexivity|].
    intros Hnil. apply (f_equal (@length float)) in Hnil.
    rewrite most_recent_length in Hnil. cbn in Hnil. lia.
Qed.

Lemma SMA_value_is_mean_of_window_witness :
  let s := SMA_feed (SMAIndicator.make 2) [10; 20; 60]%float in
  SMAIndicator.prices s = [20; 60]%float /\
  SMAIndicator.get_value s = 40%float.
Proof.
  pose proof (SMA_value_is_mean_of_window 2 [10; 20; 60]%float) as H.
  destruct H as (Hp & _ & _ & Hmore); [unfold INT_MAX; lia|].
  split; [exact Hp|].
  destruct Hmore as [_ Hv]; [cbn; lia|].
  rewrite Hv. reflexivity.
Defined.


(* ===================================================================== *)
(** * Volatility                                                          *)
(* ===================================================================== *)

Lemma Volatility_update_window_size s r :
VolatilityIndicator.window_size (VolatilityIndicator.update s r)
= VolatilityIndicator.window_size s.
Proof. unfold VolatilityIndicator.update. destruct (_ <? _)%Z; reflexivity. Qed.

Lemma Volatility_update_window (n : nat) s hist r :
VolatilityIndicator.window_size s = Z.of_nat n ->
VolatilityIndicator.returns s = most_recent n hist ->
VolatilityIndicator.returns (VolatilityIndicator.update s r)
= most_recent n (hist ++ [r]).
Proof.
intros Hw Hr. rewrite most_recent_snoc. cbn zeta.
unfold VolatilityIndicator.update. rewrite Hw, Hr.
window_step n (most_recent n hist ++ [r]).
Qed.

Lemma Volatility_feed_window (n : nat) rs : forall s hist,
VolatilityIndicator.window_size s = Z.of_nat n ->
VolatilityIndicator.returns s = most_recent n hist ->
VolatilityIndicator.returns (Volatility_feed s rs) = most_recent n (hist ++ rs).
Proof.
induction rs as [|r rs IH]; intros s hist Hw Hr; cbn [Volatility_feed fold_left].
- rewrite app_nil_r. exact Hr.
- change (fold_left VolatilityIndicator.update rs (VolatilityIndicator.update s r))
    with (Volatility_feed (VolatilityIndicator.update s r) rs).
  replace (hist ++ r :: rs) with ((hist ++ [r]) ++ rs)
    by (rewrite <- app_assoc; reflexivity).
  apply IH.
  + rewrite Volatility_update_window_size. exact Hw.
  + apply Volatility_update_window; assumption.
Qed.

(** The loop that sums the squared differences is the sum of the list of
    squared differences. *)
Lemma sum_squared_diffs_accumulate l m :
VolatilityIndicator.sum_squared_diffs l m
= Double.accumulate (map (fun r => ((r - m) * (r - m))%float) l) 0.
Proof.
unfold VolatilityIndicator.sum_squared_diffs, Double.accumulate.
generalize 0%float as acc.
induction l as [|r l IH]; intros acc; cbn [fold_left map]; [reflexivity|].
apply IH.
Qed.

Lemma Volatility_get_value_few s :
length (VolatilityIndicator.returns s) < 2 ->
VolatilityIndicator.get_value s = 0%float.
Proof.
intros H. unfold VolatilityIndicator.get_value.
destruct (Nat.ltb_spec (length (VolatilityIndicator.returns s)) 2);
  [reflexivity | lia].
Qed.

Lemma Volatility_get_value_stddev s :
2 <= length (VolatilityIndicator.returns s) ->
VolatilityIndicator.get_value s = sample_stddev (VolatilityIndicator.returns s).
Proof.
intros H. unfold VolatilityIndicator.get_value, sample_stddev, mean.
destruct (Nat.ltb_spec (length (VolatilityIndicator.returns s)) 2); [lia|].
cbn zeta. rewrite sum_squared_diffs_accumulate. reflexivity.
Qed.

(** C7. A volatility indicator fed the returns [rs] retains the most recent
    [window_size] of them. Its value is [0.0] whenever fewer than two
    returns are retained, and the sample standard deviation (Bessel's
    correction) of the retained returns otherwise; three zero returns give
    [0.0] for every window size. *)
Theorem Volatility_value_is_sample_stddev :
(forall (window : nat) (rs : list float),
   VolatilityIndicator.returns
     (Volatility_feed (VolatilityIndicator.make (Z.of_nat window)) rs)
   = most_recent window rs) /\
(forall s, length (VolatilityIndicator.returns s) < 2 ->
           VolatilityIndicator.get_value s = 0%float) /\
(forall s, 2 <= length (VolatilityIndicator.returns s) ->
           VolatilityIndicator.get_value s
           = sample_stddev (VolatilityIndicator.returns s)) /\
(forall window : nat,
   VolatilityIndicator.get_value
     (Volatility_feed (VolatilityIndicator.make (Z.of_nat window))
        [0; 0; 0]%float)
   = 0%float).
Proof.
assert (Hwin : forall (window : nat) (rs : list float),
           VolatilityIndicator.returns
             (Volatility_feed (VolatilityIndicator.make (Z.of_nat window)) rs)
           = most_recent window rs).
{ intros window rs. change rs with ([] ++ rs) at 2.
  apply Volatility_feed_window; reflexivity. }
split; [exact Hwin|].
split; [exact Volatility_get_value_few|].
split; [exact Volatility_get_value_stddev|].
intros window. unfold VolatilityIndicator.get_value. rewrite Hwin.
destruct window as [|[|[|window]]]; reflexivity.
Qed.

Lemma Volatility_value_is_sample_stddev_witness :
VolatilityIndicator.returns
  (Volatility_feed (VolatilityIndicator.make 2) [1; 2; 4]%float)
= [2; 4]%float /\
VolatilityIndicator.get_value
  (Volatility_feed (VolatilityIndicator.make 2) [1; 2; 4]%float)
= PrimFloat.sqrt 2 /\
VolatilityIndicator.get_value
  (Volatility_feed (VolatilityIndicator.make 1) [1; 2; 4]%float)
= 0%float.
Proof.
destruct Volatility_value_is_sample_stddev as (Hwin & Hfew & Hsd & _).
split; [exact (Hwin 2%nat [1; 2; 4]%float)|]. split.
- rewrite Hsd; [reflexivity | vm_compute; lia].
- apply Hfew. vm_compute. lia.
Defined.

(* ===================================================================== *)
(** * VWAP                                                                *)
(* ===================================================================== *)

(** C6. [VWAPIndicator::update] zeroes both accumulators exactly when the
    first ten characters of the timestamp differ from the stored date, and
    in either case stores that prefix and then adds [price * volume] and
    [volume]; the first call on a new indicator accumulates from zero under
    the new date; the two trades of the specification on different dates
    give [200.0]; and the value is [0.0] whenever the volume sum is zero. *)
Theorem VWAP_resets_on_new_date :
(forall s p v ts,
   let differs :=
     negb (String.eqb (VWAPIndicator.current_date s)
                      (VWAPIndicator.new_date_of ts)) in
   let s' := VWAPIndicator.update s p v ts in
   VWAPIndicator.price_volume_sum s'
   = ((if differs then 0 else VWAPIndicator.price_volume_sum s)
      + p * Double.of_Z v)%float /\
   VWAPIndicator.volume_sum s'
   = wrap_long ((if differs then 0 else VWAPIndicator.volume_sum s) + v) /\
   VWAPIndicator.current_date s' = VWAPIndicator.new_date_of ts) /\
(forall p v ts,
   VWAPIndicator.update VWAPIndicator.make p v ts
   = VWAPIndicator.mk (0 + p * Double.of_Z v)%float (wrap_long (0 + v))
       (VWAPIndicator.new_date_of ts)) /\
VWAPIndicator.get_value
  (VWAPIndicator.update
     (VWAPIndicator.update VWAPIndicator.make 100 10 "2024-01-01T00:00")
     200 10 "2024-01-02T00:00")
= 200%float /\
(forall s, VWAPIndicator.volume_sum s = 0%Z ->
           VWAPIndicator.get_value s = 0%float).
Proof.
split; [|split; [|split]].
- intros s p v ts. cbn zeta.
  unfold VWAPIndicator.update, VWAPIndicator.accumulate_trade.
  destruct (String.eqb_spec (VWAPIndicator.current_date s)
                            (VWAPIndicator.new_date_of ts)) as [Heq|Hne];
    cbn [negb VWAPIndicator.price_volume_sum VWAPIndicator.volume_sum
         VWAPIndicator.current_date]; auto.
- intros p v ts.
  unfold VWAPIndicator.update, VWAPIndicator.accumulate_trade,
    VWAPIndicator.make.
  cbn [VWAPIndicator.current_date].
  destruct (String.eqb_spec "" (VWAPIndicator.new_date_of ts)) as [Heq|Hne];
    cbn [VWAPIndicator.price_volume_sum VWAPIndicator.volume_sum
         VWAPIndicator.current_date]; [rewrite <- Heq|]; reflexivity.
- reflexivity.
- intros s Hz. unfold VWAPIndicator.get_value. rewrite Hz. reflexivity.
Qed.

Lemma VWAP_resets_on_new_date_witness :
VWAPIndicator.get_value
  (VWAPIndicator.update
     (VWAPIndicator.update VWAPIndicator.make 100 10 "2024-01-01T00:00")
     200 (-10) "2024-01-01T09:00")
= 0%float.
Proof.
destruct VWAP_resets_on_new_date as (_ & _ & _ & Hzero).
apply Hzero. vm_compute. reflexivity.
Defined.

(* ===================================================================== *)
(** * Series                                                              *)
(* ===================================================================== *)

Lemma Series_update_seed s p v ts :
(Series.last_price s =? 0)%float = true ->
Series.update_traced s p v ts
= (Series.mk (Series.sma s) (Series.ema s) (Series.volatility s)
     (Series.vwap s) p, []).
Proof. intros H. unfold Series.update_traced. rewrite H. reflexivity. Qed.

Lemma Series_update_last_price s p v ts :
Series.last_price (Series.update s p v ts) = p.
Proof.
unfold Series.update, Series.update_traced.
destruct (Series.last_price s =? 0)%float; reflexivity.
Qed.

(** C8. The first [update] of a newly constructed [Series] stores the price
    as [last_price] and leaves the four indicators, and so every value
    [get_indicator] reports, as they were. *)
Theorem Series_first_update_only_seeds :
forall (sma_window : Z) (ema_alpha : float) (vol_window : Z)
       (p : float) (v : Z) (ts : string),
  let s0 := Series.make sma_window ema_alpha vol_window in
  let s1 := Series.update s0 p v ts in
  Series.last_price s1 = p /\
  Series.sma s1 = Series.sma s0 /\
  Series.ema s1 = Series.ema s0 /\
  Series.volatility s1 = Series.volatility s0 /\
  Series.vwap s1 = Series.vwap s0 /\
  forall type, Series.get_indicator s1 type = Series.get_indicator s0 type.
Proof.
intros sma_window ema_alpha vol_window p v ts s0 s1.
assert (Hs1 : s1 = Series.mk (Series.sma s0) (Series.ema s0)
                     (Series.volatility s0) (Series.vwap s0) p).
{ subst s1. unfold Series.update. rewrite Series_update_seed; reflexivity. }
rewrite Hs1. cbn [Series.last_price Series.sma Series.ema Series.volatility
                  Series.vwap].
repeat split.
Qed.

Lemma Series_update_traced_nonzero s p v ts :
Forall nonzero_divisor (snd (Series.update_traced s p v ts)).
Proof.
unfold Series.update_traced.
destruct (Series.last_price s =? 0)%float eqn:Hz; cbn [snd].
- constructor.
- constructor; [exact Hz | constructor].
Qed.

Lemma Series_run_traced_nonzero calls : forall s,
Forall nonzero_divisor (snd (Series_run_traced s calls)).
Proof.
induction calls as [|[[p v] ts] calls IH]; intros s; cbn [Series_run_traced].
- constructor.
- pose proof (Series_update_traced_nonzero s p v ts) as H1.
  destruct (Series.update_traced s p v ts) as [s1 ev1].
  specialize (IH s1).
  destruct (Series_run_traced s1 calls) as [s2 ev2].
  cbn [snd] in *. apply Forall_app. split; assumption.
Qed.

(** C10. In every sequence of [Series::update] calls, from any state, each
    division [price / last_price] that is evaluated has a divisor that does
    not compare equal to zero. A call that finds [last_price] equal to zero
    takes the seed branch: it evaluates no division and changes nothing but
    [last_price]. An update with a zero price leaves [last_price] equal to
    zero, so the call after it seeds again. *)
Theorem Series_update_never_divides_by_zero :
(forall s calls, Forall nonzero_divisor (snd (Series_run_traced s calls))) /\
(forall s p v ts,
   (Series.last_price s =? 0)%float = true ->
   Series.update_traced s p v ts
   = (Series.mk (Series.sma s) (Series.ema s) (Series.volatility s)
        (Series.vwap s) p, [])) /\
(forall sma_window ema_alpha vol_window,
   (Series.last_price (Series.make sma_window ema_alpha vol_window) =? 0)%float
   = true) /\
(forall s p v ts,
   (p =? 0)%float = true ->
   (Series.last_price (Series.update s p v ts) =? 0)%float = true /\
   forall p' v' ts',
     Series.update_traced (Series.update s p v ts) p' v' ts'
     = (Series.mk (Series.sma (Series.update s p v ts))
          (Series.ema (Series.update s p v ts))
          (Series.volatility (Series.update s p v ts))
          (Series.vwap (Series.update s p v ts)) p', [])).
Proof.
split; [|split; [|split]].
- intros s calls. apply Series_run_traced_nonzero.
- exact Series_update_seed.
- reflexivity.
- intros s p v ts Hp.
  assert (Hz : (Series.last_price (Series.update s p v ts) =? 0)%float = true).
  { rewrite Series_update_last_price. exact Hp. }
  split; [exact Hz|].
  intros p' v' ts'. apply Series_update_seed. exact Hz.
Qed.

Lemma Series_update_never_divides_by_zero_witness :
let s := Series.update
           (Series.update (Series.make 20 (span_to_alpha 50) 30) 100 10 "d")
           0 10 "d" in
snd (Series.update_traced s 105 10 "d") = [] /\
Series.last_price (Series.update s 105 10 "d") = 105%float /\
Forall nonzero_divisor
  (snd (Series_run_traced (Series.make 20 (span_to_alpha 50) 30)
          [(100, 10%Z, "d"); (0, 10%Z, "d"); (105, 10%Z, "d");
           (110, 10%Z, "d")]%float)).
Proof.
destruct Series_update_never_divides_by_zero as (Hrun & _ & _ & Hzero).
cbn zeta.
destruct (Hzero (Series.update (Series.make 20 (span_to_alpha 50) 30)
                   100 10 "d")%float
                0%float 10%Z "d" eq_refl) as [_ Hseed].
split; [rewrite Hseed; reflexivity|].
split; [apply Series_update_last_price|].
apply Hrun.
Defined.

(* ===================================================================== *)
(** * Stream driver                                                       *)
(* ===================================================================== *)

Local Set Warnings "-inexact-float".

(** C3. With [sma_window = 2] and the SMA column selected, the three lines
    of the scenario are all emitted, each row printed from the series as it
    stands after the update made for that row. The SMA column reads [0.0] on
    the first row (the seed row updates no indicator, the window is empty),
    the double nearest to [150.30] on the second (the window holds that
    price only) and the double nearest to [150.45] on the third (the mean of
    the two prices in the window). *)
Theorem scenario_emits_seed_then_means :
let header := SrcAnalyzer.print_csv_header sma2_config in
let s0 := Series.make 2 (span_to_alpha 50) 30 in
let r1 := scenario_row "2023-09-15 09:30:00" 150.00 in
let r2 := scenario_row "2023-09-15 09:30:30" 150.30 in
let r3 := scenario_row "2023-09-15 09:31:00" 150.60 in
let s1 := Series.update s0 (price r1) (volume r1) (timestamp r1) in
let s2 := Series.update s1 (price r2) (volume r2) (timestamp r2) in
let s3 := Series.update s2 (price r3) (volume r3) (timestamp r3) in
exists st,
  SrcAnalyzer.process_file sma2_config scenario_lines = Returns st /\
  written st = [SrcAnalyzer.print_csv_row sma2_config r1 s1;
                SrcAnalyzer.print_csv_row sma2_config r2 s2;
                SrcAnalyzer.print_csv_row sma2_config r3 s3] /\
  map (fun row => column_value header row "sma") (written st)
  = [Some (Real 0); Some (Real 150.30); Some (Real 150.45)]%float /\
  SMAIndicator.prices (Series.sma s1) = [] /\
  SMAIndicator.prices (Series.sma s2) = [150.30]%float /\
  SMAIndicator.prices (Series.sma s3) = [150.30; 150.60]%float /\
  symbol_data st !! "AAPL" = Some s3.
Proof.
cbn zeta. eexists.
split; [vm_compute; reflexivity|].
repeat split; vm_compute; reflexivity.
Qed.

(** The filter test of the driver loop, on a row of another symbol. *)
Lemma filter_rejects (config : CLIConfig) (sym : string) :
filter_symbol config <> "" ->
sym <> filter_symbol config ->
negb (String.eqb (filter_symbol config) "")
&& negb (String.eqb sym (filter_symbol config)) = true.
Proof.
intros Hset Hother.
destruct (String.eqb_spec (filter_symbol config) "") as [|_]; [contradiction|].
destruct (String.eqb_spec sym (filter_symbol config)) as [|_];
  [contradiction|].
reflexivity.
Qed.

(** C9. Under a non-empty symbol filter, a line whose row carries another
    symbol leaves the analyzer as it was: nothing is written and the
    registry is the same map, so no series is created for that symbol and
    none is changed. *)
Theorem filtered_row_changes_nothing config st line row :
filter_symbol config <> "" ->
SrcAnalyzer.parse_line line = Returns row ->
symbol row <> filter_symbol config ->
SrcAnalyzer.process_line config st line = Returns st.
Proof.
intros Hset Hparse Hother. unfold SrcAnalyzer.process_line.
destruct (String.eqb line ""); [reflexivity|].
rewrite Hparse. cbn [bind].
destruct (is_valid row); cbn [negb]; [|reflexivity].
rewrite (filter_rejects config (symbol row) Hset Hother).
reflexivity.
Qed.

Lemma filtered_row_changes_nothing_witness :
SrcAnalyzer.process_line aapl_only_config initial_state
  "2024-01-02 09:30:00,MSFT,300.5,100"
= Returns initial_state /\
symbol_data initial_state !! "MSFT" = None.
Proof.
split; [|reflexivity].
apply (filtered_row_changes_nothing aapl_only_config initial_state
         "2024-01-02 09:30:00,MSFT,300.5,100"
         {| timestamp := "2024-01-02 09:30:00"; symbol := "MSFT";
            price := 300.5; volume := 100; is_valid := true |}).
- discriminate.
- vm_compute. reflexivity.
- discriminate.
Defined.

(** A run of lines that all carry other symbols changes nothing either. *)
Lemma filtered_rows_change_nothing config lines : forall st,
filter_symbol config <> "" ->
Forall (fun line => exists row, SrcAnalyzer.parse_line line = Returns row /\
                                symbol row <> filter_symbol config) lines ->
SrcAnalyzer.process_lines config st lines = Returns st.
Proof.
induction lines as [|line lines IH]; intros st Hset Hall;
  cbn [SrcAnalyzer.process_lines]; [reflexivity|].
inversion Hall as [|? ? (row & Hparse & Hother) Hrest]; subst.
unfold SrcAnalyzer.process_line.
destruct (String.eqb line ""); cbn [bind]; [apply IH; assumption|].
rewrite Hparse. cbn [bind].
destruct (is_valid row); cbn [negb bind]; [|apply IH; assumption].
rewrite (filter_rejects config (symbol row) Hset Hother).
cbn [bind]. apply IH; assumption.
Qed.

(** The driver at the top of the tree filters in the same way. *)
Lemma root_filtered_row_changes_nothing config st line :
filter_symbol config <> "" ->
symbol (RootAnalyzer.parse_line line) <> filter_symbol config ->
RootAnalyzer.process_line config st line = st.
Proof.
intros Hset Hother. unfold RootAnalyzer.process_line.
destruct (String.eqb line ""); [reflexivity|].
destruct (is_valid (RootAnalyzer.parse_line line)); cbn [negb];
  [|reflexivity].
rewrite (filter_rejects config _ Hset Hother).
reflexivity.
Qed.

(** The row printer under [src/] puts under each selected column the value
    of the indicator of that name. *)
Lemma src_print_csv_row_columns config row series :
(output_sma config = true ->
 column_value (SrcAnalyzer.print_csv_header config)
   (SrcAnalyzer.print_csv_row config row series) "sma"
 = Some (Real (Series.get_indicator series SMA))) /\
(output_ema config = true ->
 column_value (SrcAnalyzer.print_csv_header config)
   (SrcAnalyzer.print_csv_row config row series) "ema"
 = Some (Real (Series.get_indicator series EMA))) /\
(output_vol config = true ->
 column_value (SrcAnalyzer.print_csv_header config)
   (SrcAnalyzer.print_csv_row config row series) "volatility"
 = Some (Real (Series.get_indicator series VOLATILITY))) /\
(output_vwap config = true ->
 column_value (SrcAnalyzer.print_csv_header config)
   (SrcAnalyzer.print_csv_row config row series) "vwap"
 = Some (Real (Series.get_indicator series VWAP))).
Proof.
unfold SrcAnalyzer.print_csv_header, SrcAnalyzer.print_csv_row.
destruct (output_sma config), (output_ema config), (output_vol config),
  (output_vwap config); repeat split; intros H; try discriminate H;
  reflexivity.
Qed.

(** The row printer at the top of the tree puts the SMA under the [ema]
    column, whatever the series. *)
Lemma root_print_csv_row_ema_column config row series :
output_ema config = true ->
column_value (RootAnalyzer.print_csv_header config)
  (RootAnalyzer.print_csv_row config row series) "ema"
= Some (Real (Series.get_indicator series SMA)).
Proof.
intros H. unfold RootAnalyzer.print_csv_header, RootAnalyzer.print_csv_row.
rewrite H. destruct (output_sma config); reflexivity.
Qed.

(** Both header printers list the selected indicator columns in the order
    sma, ema, volatility, vwap. *)
Lemma print_csv_header_order config :
let selected :=
  (if output_sma config then ["sma"] else [])
  ++ (if output_ema config then ["ema"] else [])
  ++ (if output_vol config then ["volatility"] else [])
  ++ (if output_vwap config then ["vwap"] else []) in
SrcAnalyzer.print_csv_header config
= ["timestamp"; "symbol"; "price"; "volume"] ++ selected /\
RootAnalyzer.print_csv_header config
= ["timestamp"; " symbol"; " price"; " volume"] ++ selected.
Proof. split; reflexivity. Qed.

(** C2. With [--ema=1] and three lines priced 100, 110 and 140 for one
    symbol, the series after the third line has SMA [125.0] and EMA
    [140.0]. The analyzer of [analyzer.cpp] at the top of the tree emits for
    that line a row whose [ema] column holds [125.0], the SMA; the analyzer
    under [src/] emits [140.0] there. *)
Theorem root_ema_column_prints_sma :
let st := RootAnalyzer.process_file ema1_config ema1_lines in
RootAnalyzer.parse_line "2024-01-02 09:32:00,AAPL,140,10" = ema1_row /\
symbol_data st !! "AAPL" = Some ema1_series /\
Series.get_indicator ema1_series SMA = 125%float /\
Series.get_indicator ema1_series EMA = 140%float /\
RootAnalyzer.print_csv_header ema1_config
= ["timestamp"; " symbol"; " price"; " volume"; "ema"] /\
last (written st)
= Some [Text "2024-01-02 09:32:00"; Text "AAPL"; Real 140; Whole 10;
        Real 125] /\
(last (written st)
 ≫= fun row => column_value (RootAnalyzer.print_csv_header ema1_config)
                 row "ema")
= Some (Real 125) /\
exists st',
  SrcAnalyzer.process_file ema1_config ema1_lines = Returns st' /\
  (last (written st')
   ≫= fun row => column_value (SrcAnalyzer.print_csv_header ema1_config)
                   row "ema")
  = Some (Real 140).
Proof.
cbn zeta. repeat split; try (vm_compute; reflexivity).
eexists. split; vm_compute; reflexivity.
Qed.

(** A row that [parse_line] marks valid carries the first two fields as
    they stand in the line; its price field was consumed by [strtod] from
    its first to its last character, and its volume is the integer that
    [from_chars] read at the head of the fourth field. *)
Lemma parse_line_valid_inversion line row :
SrcAnalyzer.parse_line line = Returns row ->
is_valid row = true ->
let fs := split_csv_line line in
timestamp row = field_string line (field_at fs 0) /\
symbol row = field_string line (field_at fs 1) /\
(exists o n, FieldRange.start (field_at fs 2) = Data o /\
             CLib.strtod_string (CLib.drop_chars o line) = (price row, n) /\
             n <> 0 /\ n = FieldRange.length (field_at fs 2)) /\
(exists k, CLib.from_chars_long (field_string line (field_at fs 3))
           = (CLib.errc_ok, Some (volume row), k)).
Proof.
intros Hparse Hvalid fs. unfold SrcAnalyzer.parse_line in Hparse.
fold fs in Hparse.
destruct (negb (length fs =? 4)%nat);
  [injection Hparse as <-; discriminate Hvalid|].
unfold CLib.strtod, FieldRange.end_ in Hparse.
destruct (FieldRange.start (field_at fs 2)) as [|o] eqn:Hstart;
  [discriminate Hparse|].
destruct (CLib.strtod_string (CLib.drop_chars o line)) as [p n] eqn:Hconv.
cbn [bind char_ptr_eqb] in Hparse.
destruct (Nat.eqb_spec (o + n) o) as [|Hn]; cbn [orb] in Hparse;
  [injection Hparse as <-; discriminate Hvalid|].
destruct (Nat.eqb_spec (o + n) (o + FieldRange.length (field_at fs 2)))
  as [Hend|]; cbn [negb] in Hparse;
  [|injection Hparse as <-; discriminate Hvalid].
destruct (CLib.from_chars_long (field_string line (field_at fs 3)))
  as [[ec [vol|]] k] eqn:Hvol; destruct ec;
  injection Hparse as <-; try discriminate Hvalid.
cbn [timestamp symbol price volume].
split; [reflexivity|]. split; [reflexivity|]. split.
- exists o, n. split; [reflexivity|]. split; [exact Hconv|].
  split; [intros ->; apply Hn; lia | lia].
- exists k. reflexivity.
Qed.

(** C1. [parse_line] marks as valid a line of five fields, and a line whose
    volume field has text after its digits; so does the [parse_line] of
    [analyzer.cpp] at the top of the tree, which moreover accepts text
    after the digits of the price. *)
Theorem parse_line_accepts_malformed_lines :
let accepted := {| timestamp := "t"; symbol := "S"; price := 1.5;
                   volume := 10; is_valid := true |} in
SrcAnalyzer.parse_line "t,S,1.5,10,extra" = Returns accepted /\
SrcAnalyzer.parse_line "t,S,1.5,10abc" = Returns accepted /\
RootAnalyzer.parse_line "t,S,1.5,10,extra" = accepted /\
RootAnalyzer.parse_line "t,S,1.5,10abc" = accepted /\
RootAnalyzer.parse_line "t,S,1.5abc,10" = accepted.
Proof. cbn zeta. repeat split; vm_compute; reflexivity. Qed.

(* ===================================================================== *)
(** * Tokenizer                                                           *)
(* ===================================================================== *)

Lemma string_app_nil_l b : "" +:+ b = b.
Proof. reflexivity. Qed.

Lemma string_app_cons x a b : String x a +:+ b = String x (a +:+ b).
Proof. reflexivity. Qed.

Lemma string_length_app a b :
String.length (a +:+ b) = String.length a + String.length b.
Proof.
induction a as [|c a IH]; [reflexivity|].
rewrite string_app_cons. cbn [String.length]. rewrite IH. reflexivity.
Qed.

Lemma string_app_assoc a b c : (a +:+ b) +:+ c = a +:+ (b +:+ c).
Proof.
induction a as [|x a IH]; [reflexivity|].
rewrite !string_app_cons, IH. reflexivity.
Qed.

Lemma string_app_nil_r a : a +:+ "" = a.
Proof.
induction a as [|x a IH]; [reflexivity|].
rewrite string_app_cons, IH. reflexivity.
Qed.

Lemma comma_free_app a b : comma_free a -> comma_free b -> comma_free (a +:+ b).
Proof.
induction a as [|c a IH]; [intros _ Hb; exact Hb|].
rewrite string_app_cons. cbn [comma_free]. intros [Hc Ha] Hb. split; auto.
Qed.

Lemma split_commas_nonempty s : split_commas s <> [].
Proof.
destruct s as [|c s]; cbn [split_commas]; [discriminate|].
destruct (Ascii.eqb c ","); [discriminate|].
destruct (split_commas s); discriminate.
Qed.

Lemma split_commas_length s : length (split_commas s) = S (commas s).
Proof.
induction s as [|c s IH]; cbn [split_commas commas]; [reflexivity|].
destruct (Ascii.eqb c ","); cbn [length]; [rewrite IH; reflexivity|].
destruct (split_commas s) as [|p ps] eqn:E; cbn [length] in *; lia.
Qed.

Lemma split_commas_comma_free s : Forall comma_free (split_commas s).
Proof.
induction s as [|c s IH]; cbn [split_commas].
- repeat constructor.
- destruct (Ascii.eqb_spec c ",") as [->|Hc].
  + constructor; [exact I | exact IH].
  + destruct (split_commas s) as [|p ps].
    * repeat constructor. exact Hc.
    * inversion IH; subst. constructor; [split; assumption | assumption].
Qed.

Lemma join_commas_cons p q ps :
join_commas (p :: q :: ps) = p +:+ String "," (join_commas (q :: ps)).
Proof. reflexivity. Qed.

Lemma join_split_commas s : join_commas (split_commas s) = s.
Proof.
induction s as [|c s IH]; cbn [split_commas]; [reflexivity|].
destruct (Ascii.eqb_spec c ",") as [->|Hc].
- destruct (split_commas s) as [|q ps] eqn:E;
    [destruct (split_commas_nonempty s E)|].
  rewrite join_commas_cons, IH. reflexivity.
- destruct (split_commas s) as [|p [|q ps]] eqn:E.
  + destruct (split_commas_nonempty s E).
  + unfold join_commas in *. cbn [String.concat] in *. rewrite IH. reflexivity.
  + rewrite join_commas_cons in *. rewrite string_app_cons, IH. reflexivity.
Qed.

(** Splitting after a comma-free prefix. *)
Lemma split_commas_app cur rest :
comma_free cur ->
split_commas (cur +:+ rest)
= match split_commas rest with
  | p :: ps => (cur +:+ p) :: ps
  | [] => [cur]
  end.
Proof.
induction cur as [|c cur IH].
- intros _. rewrite string_app_nil_l.
  destruct (split_commas rest) eqn:E;
    [destruct (split_commas_nonempty _ E) | reflexivity].
- intros [Hc Hcur]. rewrite string_app_cons. cbn [split_commas].
  destruct (Ascii.eqb_spec c ","); [contradiction|].
  rewrite IH by assumption.
  destruct (split_commas rest) eqn:E;
    [destruct (split_commas_nonempty _ E) | reflexivity].
Qed.

Lemma pad_fields_snoc done f :
length done < 4 ->
<[length done := f]> (pad_fields done) = pad_fields (done ++ [f]).
Proof.
intros Hlt. unfold pad_fields.
rewrite insert_app_r_alt by lia. rewrite Nat.sub_diag.
rewrite length_app. cbn [length].
replace (4 - length done) with (S (4 - (length done + 1))) by lia.
cbn [replicate]. rewrite <- app_assoc. reflexivity.
Qed.

(** The loop invariant: [done] holds the spans written so far, [cur] the
    characters of the current field read so far. *)
Lemma split_loop_spec rest : forall cur done o,
comma_free cur ->
length done <= 4 ->
fields (split_loop rest (o + String.length cur)
          {| fields := pad_fields done;
             field_index := length done;
             start := o |})
= pad_fields (done ++ spans_of o (firstn (4 - length done)
                                    (split_commas (cur +:+ rest)))).
Proof.
induction rest as [|c rest IH]; intros cur done o Hcur Hlen.
- rewrite (split_commas_app cur "") by assumption.
  cbn [split_commas]. rewrite string_app_nil_r.
  cbn [split_loop field_index].
  destruct (Nat.ltb_spec (length done) 4) as [Hlt|Hge].
  + unfold store_field. cbn [fields field_index start].
    rewrite pad_fields_snoc by assumption.
    replace (4 - length done) with (S (3 - length done)) by lia.
    cbn [firstn spans_of]. rewrite firstn_nil. cbn [spans_of].
    replace (o + String.length cur - o) with (String.length cur) by lia.
    reflexivity.
  + replace (4 - length done) with 0 by lia. cbn [firstn spans_of fields].
    rewrite app_nil_r. reflexivity.
- cbn [split_loop field_index].
  destruct (Nat.ltb_spec (length done) 4) as [Hlt|Hge].
  + destruct (Ascii.eqb_spec c ",") as [->|Hc].
    * unfold store_field. cbn [fields field_index start].
      rewrite pad_fields_snoc by assumption.
      replace (o + String.length cur - o) with (String.length cur) by lia.
      pose proof (IH "" (done ++ [FieldRange.mk (Data o) (String.length cur)])
                    (S (o + String.length cur)) I) as IH'.
      rewrite length_app in IH'. cbn [length String.length] in IH'.
      rewrite Nat.add_0_r in IH'.
      replace (length done + 1) with (S (length done)) in IH' by lia.
      rewrite IH' by lia. clear IH'.
      rewrite string_app_nil_l.
      rewrite (split_commas_app cur (String "," rest)) by assumption.
      cbn [split_commas]. rewrite Ascii.eqb_refl.
      rewrite string_app_nil_r.
      replace (4 - length done) with (S (4 - S (length done))) by lia.
      cbn [firstn spans_of]. rewrite <- app_assoc. cbn [app].
      replace (o + String.length cur + 1) with (S (o + String.length cur)) by lia.
      reflexivity.
    * pose proof (IH (cur +:+ String c "") done o) as IH'.
      rewrite string_length_app in IH'. cbn [String.length] in IH'.
      replace (o + (String.length cur + 1)) with (S (o + String.length cur))
        in IH' by lia.
      rewrite IH'; [|apply comma_free_app; [assumption | split; [assumption | exact I]] | assumption].
      rewrite string_app_assoc, string_app_cons, string_app_nil_l.
      reflexivity.
  + replace (4 - length done) with 0 by lia. cbn [firstn spans_of fields].
    rewrite app_nil_r. reflexivity.
Qed.

Lemma split_csv_line_pieces line :
split_csv_line line = pad_fields (spans_of 0 (firstn 4 (split_commas line))).
Proof.
unfold split_csv_line.
exact (split_loop_spec line "" [] 0 I (Nat.le_0_l 4)).
Qed.

Lemma string_substring_app a b t :
substring (String.length a) (String.length b) (a +:+ b +:+ t) = b.
Proof.
induction a as [|c a IH].
- rewrite string_app_nil_l. cbn [String.length].
  induction b as [|c b IHb].
  + destruct t; reflexivity.
  + rewrite string_app_cons. cbn [String.length substring]. rewrite IHb.
    reflexivity.
- rewrite string_app_cons. cbn [String.length substring]. exact IH.
Qed.

Lemma string_get_app a c t :
String.get (String.length a) (a +:+ String c t) = Some c.
Proof.
induction a as [|x a IH]; [reflexivity|].
rewrite string_app_cons. cbn [String.length String.get]. exact IH.
Qed.

(** The text of a joined list begins with its first piece. *)
Lemma join_commas_head p ps :
join_commas (p :: ps)
= p +:+ match ps with [] => "" | _ => String "," (join_commas ps) end.
Proof.
destruct ps; [|reflexivity].
rewrite string_app_nil_r. reflexivity.
Qed.

Lemma spans_of_length o pieces : length (spans_of o pieces) = length pieces.
Proof.
revert o. induction pieces as [|p ps IH]; intros o; cbn [spans_of length];
  [reflexivity | rewrite IH; reflexivity].
Qed.

Lemma spans_of_firstn n : forall o pieces,
spans_of o (firstn n pieces) = firstn n (spans_of o pieces).
Proof.
induction n as [|n IH]; intros o [|p ps]; cbn [firstn spans_of];
  try reflexivity.
rewrite IH. reflexivity.
Qed.

(** What the span of the [k]-th piece of a line says about the line;
    [pre] is the text before the first piece. *)
Lemma spans_of_spec pieces : forall pre k f,
spans_of (String.length pre) pieces !! k = Some f ->
exists p o,
  pieces !! k = Some p /\
  f = FieldRange.mk (Data o) (String.length p) /\
  substring o (String.length p) (pre +:+ join_commas pieces) = p /\
  (S k < length pieces ->
   String.get (o + String.length p) (pre +:+ join_commas pieces)
   = Some ","%char /\
   exists f', spans_of (String.length pre) pieces !! S k = Some f' /\
              FieldRange.start f' = Data (o + String.length p + 1)) /\
  (S k = length pieces ->
   o + String.length p = String.length (pre +:+ join_commas pieces)).
Proof.
induction pieces as [|p ps IH]; intros pre k f Hk; [discriminate Hk|].
destruct k as [|k].
- cbn [spans_of] in Hk. injection Hk as <-.
  exists p, (String.length pre). split; [reflexivity|]. split; [reflexivity|].
  rewrite join_commas_head. split; [apply string_substring_app|]. split.
  + intros Hlen. destruct ps as [|q ps]; [cbn in Hlen; lia|].
    rewrite <- string_app_assoc, <- string_length_app.
    split; [apply string_get_app|].
    eexists. split; [reflexivity|]. cbn [FieldRange.start].
    rewrite string_length_app. reflexivity.
  + intros Hlen. destruct ps; [|discriminate Hlen].
    rewrite string_app_nil_r, string_length_app. reflexivity.
- cbn [spans_of] in Hk. change ((?x :: ?l) !! S k) with (l !! k) in Hk.
  destruct ps as [|q ps]; [discriminate Hk|].
  specialize (IH (pre +:+ p +:+ String "," "") k f).
  rewrite !string_length_app in IH. cbn [String.length] in IH.
  rewrite Nat.add_assoc in IH. specialize (IH Hk).
  destruct IH as (p' & o & Hp' & Hf & Hsub & Hnext & Hlast).
  rewrite join_commas_head.
  replace (pre +:+ p +:+ String "," (join_commas (q :: ps)))
    with ((pre +:+ p +:+ String "," "") +:+ join_commas (q :: ps))
    by (rewrite !string_app_assoc, string_app_cons, string_app_nil_l;
        reflexivity).
  exists p', o. split; [exact Hp'|]. split; [exact Hf|].
  split; [exact Hsub|]. split.
  + intros Hlen. cbn [length] in Hlen.
    destruct Hnext as [Hget Hf']; [cbn [length]; lia|].
    split; [exact Hget|]. cbn [spans_of].
    change ((?x :: ?l) !! S (S k)) with (l !! S k). exact Hf'.
  + intros Hlen. cbn [length] in Hlen, Hlast.
    rewrite !string_length_app. cbn [String.length]. lia.
Qed.

(** The entries of the array that were written, and those that were not. *)
Lemma field_at_written line k :
k < 4 -> k <= commas line ->
spans_of 0 (split_commas line) !! k = Some (field_at (split_csv_line line) k).
Proof.
intros Hk Hc. rewrite split_csv_line_pieces. unfold field_at, pad_fields.
rewrite spans_of_firstn.
assert (Hlen : k < length (firstn 4 (spans_of 0 (split_commas line)))).
{ rewrite length_firstn, spans_of_length, split_commas_length. lia. }
rewrite app_nth1 by exact Hlen.
rewrite nth_lookup.
destruct (lookup_lt_is_Some_2 _ _ Hlen) as [f Hf]. rewrite Hf. cbn.
rewrite <- Hf. symmetry. apply lookup_take_lt. lia.
Qed.

Lemma field_at_unwritten line k :
commas line < k < 4 -> field_at (split_csv_line line) k = FieldRange.zero.
Proof.
intros Hk. rewrite split_csv_line_pieces. unfold field_at, pad_fields.
rewrite spans_of_firstn.
assert (Hlen : length (firstn 4 (spans_of 0 (split_commas line)))
               = S (commas line)).
{ rewrite length_firstn, spans_of_length, split_commas_length. lia. }
rewrite app_nth2 by lia. rewrite Hlen.
rewrite nth_lookup.
destruct (replicate _ _ !! _) as [f|] eqn:Hf; [|reflexivity].
apply lookup_replicate in Hf. cbn. tauto.
Qed.

Lemma split_csv_line_length line : length (split_csv_line line) = 4.
Proof.
rewrite split_csv_line_pieces. unfold pad_fields.
rewrite length_app, length_replicate, spans_of_length, length_firstn. lia.
Qed.

(** With fewer than three commas the fourth entry is the null span, on
    which [from_chars] reports [invalid_argument]. *)
Lemma parse_line_short_invalid line row :
commas line < 3 ->
SrcAnalyzer.parse_line line = Returns row ->
is_valid row = false.
Proof.
intros Hshort Hparse.
destruct (is_valid row) eqn:Hvalid; [exfalso|reflexivity].
destruct (parse_line_valid_inversion line row Hparse Hvalid)
  as (_ & _ & _ & k & Hvol).
rewrite field_at_unwritten in Hvol by lia.
discriminate Hvol.
Qed.

(** With exactly two commas the price field is there and the volume field
    is not: [parse_line] returns the invalid row. *)
Lemma parse_line_two_commas_invalid line :
commas line = 2 ->
SrcAnalyzer.parse_line line = Returns ParsedRow_invalid.
Proof.
intros Hc. unfold SrcAnalyzer.parse_line.
rewrite split_csv_line_length. cbn [Nat.eqb negb].
rewrite (field_at_unwritten line 3) by lia.
destruct (CLib.strtod line
            (FieldRange.start (field_at (split_csv_line line) 2)))
  as [[v end_ptr]|] eqn:Hconv.
- cbn [bind]. destruct (_ || _); reflexivity.
- exfalso. unfold CLib.strtod in Hconv.
  pose proof (field_at_written line 2 ltac:(lia) ltac:(lia)) as Hw.
  destruct (split_commas line) as [|p0 [|p1 [|p2 ps]]]; try discriminate Hw.
  cbn in Hw. injection Hw as Hw. rewrite <- Hw in Hconv.
  cbn [FieldRange.start] in Hconv.
  destruct (CLib.strtod_string _); discriminate Hconv.
Qed.

(** With fewer than two commas the third entry is the null span, whose
    [start] [parse_line] hands to [strtod]. *)
Lemma parse_line_null_deref line :
commas line < 2 ->
SrcAnalyzer.parse_line line = NullDeref.
Proof.
intros Hc. unfold SrcAnalyzer.parse_line.
rewrite split_csv_line_length. cbn [Nat.eqb negb].
rewrite (field_at_unwritten line 2) by lia. reflexivity.
Qed.

(** The [parse_line] at the top of the tree builds the empty string from
    the null span and returns the invalid row on every short line. *)
Lemma root_parse_line_short_invalid line :
commas line < 3 ->
RootAnalyzer.parse_line line = ParsedRow_invalid.
Proof.
intros Hc. unfold RootAnalyzer.parse_line.
rewrite split_csv_line_length. cbn [Nat.eqb negb].
rewrite (field_at_unwritten line 3) by lia.
destruct (CLib.stod _); reflexivity.
Qed.

(** C4, as the code has it. A line is its comma-free pieces joined by
    commas. The tokenizer writes the spans of the first four pieces at most:
    the first span starts at offset 0, the text of each span is its piece, a
    span that is not the last piece of the line is followed by a comma, and
    the next span written starts one past that comma, so the spans written
    are in order and do not overlap. The span of the last piece of the line,
    when it is among the four, ends at the end of the line; with more than
    three commas the fourth span ends at the fourth comma. The entries past
    the last piece stay the null span of length zero. A line with fewer than
    three commas is returned as the invalid row by the [parse_line] at the
    top of the tree; the [parse_line] under [src/] never returns it as a
    valid row, and returns it as the invalid row when it has exactly two
    commas. *)
Theorem split_csv_line_spans line :
let fs := split_csv_line line in
let pieces := split_commas line in
join_commas pieces = line /\
Forall comma_free pieces /\
length pieces = S (commas line) /\
length fs = 4 /\
FieldRange.start (field_at fs 0) = Data 0 /\
(forall k p,
   k < 4 -> pieces !! k = Some p ->
   exists o,
     field_at fs k = FieldRange.mk (Data o) (String.length p) /\
     substring o (String.length p) line = p /\
     (k < commas line ->
      String.get (o + String.length p) line = Some ","%char) /\
     (k < commas line -> k < 3 ->
      FieldRange.start (field_at fs (S k)) = Data (o + String.length p + 1)) /\
     (k = commas line -> o + String.length p = String.length line)) /\
(forall k, commas line < k < 4 -> field_at fs k = FieldRange.zero) /\
(commas line < 3 ->
 forall row, SrcAnalyzer.parse_line line = Returns row ->
             is_valid row = false) /\
(commas line = 2 ->
 SrcAnalyzer.parse_line line = Returns ParsedRow_invalid) /\
(commas line < 3 -> RootAnalyzer.parse_line line = ParsedRow_invalid).
Proof.
intros fs pieces.
assert (Hjoin : join_commas pieces = line) by apply join_split_commas.
assert (Hlen : length pieces = S (commas line)) by apply split_commas_length.
assert (Hspec : forall k p,
           k < 4 -> pieces !! k = Some p ->
           exists o,
             field_at fs k = FieldRange.mk (Data o) (String.length p) /\
             (k = 0 -> o = 0) /\
             substring o (String.length p) line = p /\
             (k < commas line ->
              String.get (o + String.length p) line = Some ","%char) /\
             (k < commas line -> k < 3 ->
              FieldRange.start (field_at fs (S k))
              = Data (o + String.length p + 1)) /\
             (k = commas line -> o + String.length p = String.length line)).
{ intros k p Hk Hp.
  assert (Hkc : k <= commas line).
  { apply lookup_lt_Some in Hp. lia. }
  pose proof (field_at_written line k Hk Hkc) as Hw. fold fs pieces in Hw.
  destruct (spans_of_spec pieces "" k _ Hw)
    as (p' & o & Hp' & Hf & Hsub & Hnext & Hlast).
  rewrite string_app_nil_l, Hjoin in Hsub, Hnext, Hlast.
  assert (p' = p) as -> by congruence.
  exists o. split; [exact Hf|]. split.
  { intros ->. cbn [spans_of] in Hw. destruct pieces; [discriminate Hp|].
    cbn [spans_of] in Hw. injection Hw as Hw. rewrite <- Hw in Hf.
    injection Hf as Ho _. symmetry. exact Ho. }
  split; [exact Hsub|]. split; [|split].
  - intros Hlt. apply Hnext. lia.
  - intros Hlt H3. destruct Hnext as [_ (f' & Hf' & Hstart)]; [lia|].
    pose proof (field_at_written line (S k) ltac:(lia) ltac:(lia)) as Hw'.
    fold fs pieces in Hw'. cbn [String.length] in Hf'.
    rewrite Hf' in Hw'. injection Hw' as <-. exact Hstart.
  - intros ->. apply Hlast. lia. }
split; [exact Hjoin|]. split; [apply split_commas_comma_free|].
split; [exact Hlen|]. split; [apply split_csv_line_length|]. split.
- destruct pieces as [|p ps] eqn:E; [discriminate Hlen|].
  destruct (Hspec 0 p ltac:(lia) eq_refl) as (o & Hf & Ho & _).
  rewrite Hf, (Ho eq_refl). reflexivity.
- split; [|split].
  + intros k p Hk Hp. destruct (Hspec k p Hk Hp) as (o & Hf & _ & Hrest).
    exists o. split; [exact Hf | exact Hrest].
  + intros k Hk. apply field_at_unwritten. exact Hk.
  + split; [|split; [apply parse_line_two_commas_invalid
                     |apply root_parse_line_short_invalid]].
    intros Hshort row. apply parse_line_short_invalid. exact Hshort.
Qed.

Lemma split_csv_line_spans_witness :
split_csv_line "t,S,1.5"
= [FieldRange.mk (Data 0) 1; FieldRange.mk (Data 2) 1;
   FieldRange.mk (Data 4) 3; FieldRange.zero] /\
(exists o, field_at (split_csv_line "t,S,1.5") 2 = FieldRange.mk (Data o) 3 /\
           substring o 3 "t,S,1.5" = "1.5" /\
           o + 3 = String.length "t,S,1.5") /\
SrcAnalyzer.parse_line "t,S,1.5" = Returns ParsedRow_invalid /\
RootAnalyzer.parse_line "t,S,1.5" = ParsedRow_invalid.
Proof.
destruct (split_csv_line_spans "t,S,1.5")
  as (_ & _ & _ & _ & _ & Hspan & _ & _ & Htwo & Hroot).
split; [reflexivity|]. split; [|split].
- destruct (Hspan 2 "1.5" ltac:(lia) eq_refl) as (o & Hf & Hsub & _ & _ & Hend).
  exists o. split; [exact Hf|]. split; [exact Hsub|]. apply Hend. reflexivity.
- apply Htwo. reflexivity.
- apply Hroot. cbn. lia.
Defined.

(** On a line of five fields the four spans end at offset 7 of 9: the
    fifth field is in no span. *)
Lemma split_csv_line_stops_at_fourth_comma :
split_csv_line "a,b,c,d,e"
= [FieldRange.mk (Data 0) 1; FieldRange.mk (Data 2) 1;
   FieldRange.mk (Data 4) 1; FieldRange.mk (Data 6) 1] /\
FieldRange.end_ (field_at (split_csv_line "a,b,c,d,e") 3) = Data 7 /\
String.length "a,b,c,d,e" = 9.
Proof. repeat split. Qed.

(** A line of two fields. *)
Lemma parse_line_one_comma_null_deref :
split_csv_line "t,S"
= [FieldRange.mk (Data 0) 1; FieldRange.mk (Data 2) 1;
   FieldRange.zero; FieldRange.zero] /\
SrcAnalyzer.parse_line "t,S" = NullDeref.
Proof. split; reflexivity. Qed.

(* ===================================================================== *)
(** * Further properties of the indicators                                *)
(* ===================================================================== *)

Lemma EMA_feed_started ps : forall cur alpha,
EMA_feed (EMAIndicator.mk cur alpha false) ps
= EMAIndicator.mk (fold_left (ema_step alpha) ps cur) alpha false.
Proof.
induction ps as [|p ps IH]; intros cur alpha; [reflexivity|].
cbn [EMA_feed fold_left].
change (fold_left EMAIndicator.update ps ?s) with (EMA_feed s ps).
unfold EMAIndicator.update at 1. cbn [EMAIndicator.first_price
  EMAIndicator.alpha EMAIndicator.current_ema].
apply IH.
Qed.

(** X1. An EMA reports [0.0] before any update. Fed a first price and
    then more, it reports the recursion [alpha * p + (1 - alpha) * current]
    folded over the later prices from the first price as seed, whatever
    [alpha] is; in particular exactly the price after a single update. The
    smoothing factor never changes. *)
Theorem EMA_value_is_seeded_recursion (alpha p : float) (ps : list float) :
EMAIndicator.get_value (EMAIndicator.make alpha) = 0%float /\
EMAIndicator.get_value (EMA_feed (EMAIndicator.make alpha) [p]) = p /\
EMAIndicator.get_value (EMA_feed (EMAIndicator.make alpha) (p :: ps))
= fold_left (ema_step alpha) ps p /\
EMAIndicator.alpha (EMA_feed (EMAIndicator.make alpha) (p :: ps)) = alpha /\
EMAIndicator.first_price (EMA_feed (EMAIndicator.make alpha) (p :: ps))
= false.
Proof.
assert (H : EMA_feed (EMAIndicator.make alpha) (p :: ps)
            = EMAIndicator.mk (fold_left (ema_step alpha) ps p) alpha false).
{ cbn [EMA_feed fold_left].
  change (fold_left EMAIndicator.update ps ?s) with (EMA_feed s ps).
  apply EMA_feed_started. }
split; [reflexivity|]. split; [reflexivity|].
rewrite H. repeat split.
Qed.

(** X2. Window sizes the command line does not refuse. An SMA of window 0
    evicts every price it is given and always reports [0.0]. An SMA of a
    negative window compares its size with the window converted to
    [size_t], a number above [2^63]: it never evicts, and reports the mean
    of all the prices it was ever fed. *)
Theorem SMA_window_not_positive (N : Z) (ps : list float) :
(N = 0%Z ->
 SMAIndicator.prices (SMA_feed (SMAIndicator.make N) ps) = [] /\
 SMAIndicator.get_value (SMA_feed (SMAIndicator.make N) ps) = 0%float) /\
((INT_MIN <= N < 0)%Z ->
 (Z.of_nat (length ps) < 2 ^ 63)%Z ->
 SMAIndicator.prices (SMA_feed (SMAIndicator.make N) ps) = ps /\
 (ps <> [] ->
  SMAIndicator.get_value (SMA_feed (SMAIndicator.make N) ps) = mean ps)).
Proof.
split.
- intros ->.
  assert (H : SMAIndicator.prices (SMA_feed (SMAIndicator.make 0) ps) = []).
  { pose proof (SMA_feed_window 0 ps (SMAIndicator.make 0) []
                  eq_refl eq_refl) as H0.
    cbn [app] in H0. rewrite H0.
    unfold most_recent. rewrite Nat.sub_0_r. apply skipn_all. }
  split; [exact H|]. unfold SMAIndicator.get_value. rewrite H. reflexivity.
- intros HN Hlen. unfold INT_MIN in HN.
  assert (Hcap : to_size_t N = (2 ^ 64 + N)%Z).
  { unfold to_size_t. symmetry. apply Z.mod_unique_pos with (q := (-1)%Z); lia. }
  assert (H : SMAIndicator.prices (SMA_feed (SMAIndicator.make N) ps) = ps).
  { assert (Hw : to_size_t (SMAIndicator.window_size (SMAIndicator.make N))
                 = Z.of_nat (Z.to_nat (2 ^ 64 + N))).
    { cbn [SMAIndicator.make SMAIndicator.window_size]. rewrite Hcap. lia. }
    pose proof (SMA_feed_window _ ps (SMAIndicator.make N) [] Hw eq_refl)
      as H0.
    cbn [app] in H0. rewrite H0. apply most_recent_all. lia. }
  split; [exact H|]. intros Hne.
  rewrite SMA_get_value_mean; rewrite H; [reflexivity | exact Hne].
Qed.

Lemma SMA_window_not_positive_witness :
SMAIndicator.prices (SMA_feed (SMAIndicator.make (-1)) [10; 20; 60]%float)
= [10; 20; 60]%float /\
SMAIndicator.get_value (SMA_feed (SMAIndicator.make 0) [10; 20; 60]%float)
= 0%float.
Proof.
destruct (SMA_window_not_positive (-1) [10; 20; 60]%float) as [_ Hneg].
destruct (SMA_window_not_positive 0 [10; 20; 60]%float) as [Hzero _].
split.
- apply Hneg; [unfold INT_MIN; lia | cbn; lia].
- apply Hzero. reflexivity.
Defined.

Lemma wrap_long_add_l a b : wrap_long (wrap_long a + b) = wrap_long (a + b).
Proof.
unfold wrap_long.
replace ((a + 2 ^ 63) mod 2 ^ 64 - 2 ^ 63 + b + 2 ^ 63)%Z
  with ((a + 2 ^ 63) mod 2 ^ 64 + b)%Z by lia.
rewrite Zplus_mod_idemp_l.
replace (a + 2 ^ 63 + b)%Z with (a + b + 2 ^ 63)%Z by lia.
reflexivity.
Qed.

(** X3. A trade on a new date makes the VWAP forget everything before it:
    from then on the indicator is what a new indicator fed that trade and
    the later ones would be. *)
Theorem VWAP_new_date_forgets_history s (c : trade) (post : list trade) :
VWAPIndicator.new_date_of (trade_timestamp c) <> VWAPIndicator.current_date s ->
VWAP_feed s (c :: post) = VWAP_feed VWAPIndicator.make (c :: post).
Proof.
intros Hnew. cbn [VWAP_feed fold_left]. f_equal.
unfold VWAPIndicator.update.
destruct (String.eqb_spec (VWAPIndicator.current_date s)
            (VWAPIndicator.new_date_of (trade_timestamp c))) as [Heq|_];
  [symmetry in Heq; contradiction|].
destruct (String.eqb_spec (VWAPIndicator.current_date VWAPIndicator.make)
            (VWAPIndicator.new_date_of (trade_timestamp c))) as [Heq|_];
  [|reflexivity].
cbn [VWAPIndicator.make VWAPIndicator.current_date] in Heq.
rewrite <- Heq. reflexivity.
Qed.

Lemma VWAP_new_date_forgets_history_witness :
VWAPIndicator.get_value
  (VWAP_feed (VWAP_feed VWAPIndicator.make
                [(100, 10%Z, "2024-01-01 09:30"); (300, 30%Z, "2024-01-01 09:31")]%float)
     [(200, 10%Z, "2024-01-02 09:30"); (400, 10%Z, "2024-01-02 09:31")]%float)
= 300%float.
Proof.
rewrite VWAP_new_date_forgets_history; [reflexivity | vm_compute; discriminate].
Defined.

Lemma wrap_long_fold calls : forall a,
fold_left (fun acc c => wrap_long (acc + trade_volume c)) calls (wrap_long a)
= wrap_long (a + fold_right Z.add 0%Z (map trade_volume calls)).
Proof.
induction calls as [|c calls IH]; intros a; cbn [fold_left map fold_right].
- rewrite Z.add_0_r. reflexivity.
- rewrite wrap_long_add_l, IH. f_equal. lia.
Qed.

Lemma VWAP_feed_cons s c calls :
VWAP_feed s (c :: calls)
= VWAP_feed (VWAPIndicator.update s (trade_price c) (trade_volume c)
               (trade_timestamp c)) calls.
Proof. reflexivity. Qed.

Lemma VWAP_feed_same_date calls : forall s,
Forall (fun c => VWAPIndicator.new_date_of (trade_timestamp c)
                 = VWAPIndicator.current_date s) calls ->
VWAP_feed s calls
= VWAPIndicator.mk
    (fold_left (fun acc c =>
                  (acc + trade_price c * Double.of_Z (trade_volume c))%float)
       calls (VWAPIndicator.price_volume_sum s))
    (fold_left (fun acc c => wrap_long (acc + trade_volume c)) calls
       (VWAPIndicator.volume_sum s))
    (VWAPIndicator.current_date s).
Proof.
induction calls as [|c calls IH]; intros s Hall.
- destruct s; reflexivity.
- inversion Hall as [|? ? Hc Hrest]; subst.
  rewrite VWAP_feed_cons. cbn [fold_left].
  assert (Hstep : VWAPIndicator.update s (trade_price c) (trade_volume c)
                    (trade_timestamp c)
                  = VWAPIndicator.accumulate_trade s (trade_price c)
                      (trade_volume c)).
  { unfold VWAPIndicator.update. rewrite Hc, String.eqb_refl. reflexivity. }
  rewrite Hstep. rewrite IH; [reflexivity|].
  cbn [VWAPIndicator.accumulate_trade VWAPIndicator.current_date]. exact Hrest.
Qed.

(** X4. A new VWAP fed one or more trades of one date [d] holds the sum of
    the products [price * volume], added in order from zero, the sum of the
    volumes as a [long], and the date [d]. *)
Theorem VWAP_same_date_accumulates (d : string) (c : trade)
        (calls : list trade) :
Forall (fun c => VWAPIndicator.new_date_of (trade_timestamp c) = d)
       (c :: calls) ->
VWAP_feed VWAPIndicator.make (c :: calls)
= VWAPIndicator.mk
    (fold_left (fun acc c =>
                  (acc + trade_price c * Double.of_Z (trade_volume c))%float)
       (c :: calls) 0%float)
    (wrap_long (fold_right Z.add 0%Z (map trade_volume (c :: calls))))
    d.
Proof.
intros Hall. inversion Hall as [|? ? Hc Hrest]; subst.
rewrite VWAP_feed_cons. cbn [fold_left map fold_right].
assert (Hfirst : VWAPIndicator.update VWAPIndicator.make (trade_price c)
                   (trade_volume c) (trade_timestamp c)
                 = VWAPIndicator.mk
                     (0 + trade_price c * Double.of_Z (trade_volume c))%float
                     (wrap_long (0 + trade_volume c))
                     (VWAPIndicator.new_date_of (trade_timestamp c))).
{ unfold VWAPIndicator.update, VWAPIndicator.accumulate_trade,
    VWAPIndicator.make.
  cbn [VWAPIndicator.current_date].
  destruct (String.eqb_spec ""
              (VWAPIndicator.new_date_of (trade_timestamp c))) as [Heq|_];
    cbn [VWAPIndicator.price_volume_sum VWAPIndicator.volume_sum
         VWAPIndicator.current_date]; [rewrite <- Heq|]; reflexivity. }
rewrite Hfirst, VWAP_feed_same_date by exact Hrest.
cbn [VWAPIndicator.price_volume_sum VWAPIndicator.volume_sum
     VWAPIndicator.current_date].
rewrite wrap_long_fold. reflexivity.
Qed.

Lemma VWAP_same_date_accumulates_witness :
VWAPIndicator.get_value
  (VWAP_feed VWAPIndicator.make
     [(100, 10%Z, "2024-01-01 09:30"); (300, 30%Z, "2024-01-01 09:31")]%float)
= 250%float.
Proof.
rewrite (VWAP_same_date_accumulates "2024-01-01").
- reflexivity.
- repeat constructor.
Defined.

(* ===================================================================== *)
(** * Series as a composition of its indicators                           *)
(* ===================================================================== *)

Lemma last_cons_default {A} (d x : A) (l : list A) :
default d (last (x :: l)) = default x (last l).
Proof. rewrite last_cons. destruct (last l); reflexivity. Qed.

Lemma Series_feed_cons s c calls :
Series_feed s (c :: calls)
= Series_feed (Series.update s (trade_price c) (trade_volume c)
                 (trade_timestamp c)) calls.
Proof. reflexivity. Qed.

Lemma Series_feed_seeded calls : forall s,
(Series.last_price s =? 0)%float = false ->
Forall (fun c => (trade_price c =? 0)%float = false) calls ->
Series_feed s calls
= Series.mk
    (SMA_feed (Series.sma s) (map trade_price calls))
    (EMA_feed (Series.ema s) (map trade_price calls))
    (Volatility_feed (Series.volatility s)
       (returns_from (Series.last_price s) (map trade_price calls)))
    (VWAP_feed (Series.vwap s) calls)
    (default (Series.last_price s) (last (map trade_price calls))).
Proof.
induction calls as [|c calls IH]; intros s Hseed Hall.
- destruct s; reflexivity.
- inversion Hall as [|? ? Hc Hrest]; subst.
  rewrite Series_feed_cons.
  unfold Series.update at 1, Series.update_traced. rewrite Hseed. cbn [fst].
  rewrite IH by assumption.
  cbn [Series.sma Series.ema Series.volatility Series.vwap Series.last_price
       map returns_from].
  rewrite last_cons_default. reflexivity.
Qed.

(** X5. A series is its four indicators run side by side, one trade late.
    When no price compares equal to zero, a new series fed a first trade and
    then more holds: the SMA and the EMA fed the prices of the later trades,
    the volatility indicator fed the returns of these prices (the first
    price is the base of the first return), the VWAP fed the later trades,
    and the last price. The first trade reaches no indicator. *)
Theorem Series_feed_is_indicators_on_tail
        (sma_window : Z) (ema_alpha : float) (vol_window : Z)
        (c : trade) (calls : list trade) :
Forall (fun c => (trade_price c =? 0)%float = false) (c :: calls) ->
let ps := map trade_price calls in
Series_feed (Series.make sma_window ema_alpha vol_window) (c :: calls)
= Series.mk
    (SMA_feed (SMAIndicator.make sma_window) ps)
    (EMA_feed (EMAIndicator.make ema_alpha) ps)
    (Volatility_feed (VolatilityIndicator.make (to_size_t vol_window))
       (returns_from (trade_price c) ps))
    (VWAP_feed VWAPIndicator.make calls)
    (default (trade_price c) (last ps)).
Proof.
intros Hall ps. inversion Hall as [|? ? Hc Hrest]; subst.
rewrite Series_feed_cons.
unfold Series.update at 1, Series.update_traced.
cbn [Series.make Series.last_price fst].
change (0 =? 0)%float with true. cbn [fst].
rewrite Series_feed_seeded; [reflexivity | exact Hc | exact Hrest].
Qed.

Lemma Series_feed_is_indicators_on_tail_witness :
Series.get_indicator
  (Series_feed (Series.make 2 (span_to_alpha 1) 30)
     [(100, 10%Z, "d"); (110, 10%Z, "d"); (140, 10%Z, "d")]%float)
  SMA
= 125%float.
Proof.
rewrite (Series_feed_is_indicators_on_tail 2 (span_to_alpha 1) 30).
- reflexivity.
- repeat constructor.
Defined.

(* ===================================================================== *)
(** * Registry and driver loop                                            *)
(* ===================================================================== *)

(** X6. [get_or_create_series] returns the entry of the symbol in the
    registry it leaves. An entry that was there is returned as it is and the
    registry is unchanged; a missing one is created from the parameters of
    the configuration and the registry grows by that entry alone. No other
    symbol is touched, and asking again changes nothing. *)
Theorem get_or_create_series_lookup config (data : gmap string Series.t)
        (sym : string) :
let data' := fst (get_or_create_series config data sym) in
let s := snd (get_or_create_series config data sym) in
data' !! sym = Some s /\
(forall sym', sym' <> sym -> data' !! sym' = data !! sym') /\
(forall s0, data !! sym = Some s0 -> data' = data /\ s = s0) /\
(data !! sym = None ->
 s = Series.make (sma_window config) (span_to_alpha (ema_span config))
       (vol_window config) /\
 size data' = S (size data)) /\
get_or_create_series config data' sym = (data', s).
Proof.
unfold get_or_create_series.
destruct (data !! sym) as [s0|] eqn:Hlook; cbn [fst snd].
- split; [exact Hlook|]. split; [reflexivity|].
  split; [intros ? [= <-]; split; reflexivity|].
  split; [discriminate|]. rewrite Hlook. reflexivity.
- split; [apply lookup_insert_eq|].
  split; [intros sym' Hne; apply lookup_insert_ne; congruence|].
  split; [discriminate|].
  split; [intros _; split; [reflexivity | apply map_size_insert_None; exact Hlook]|].
  rewrite lookup_insert_eq. reflexivity.
Qed.

Lemma get_or_create_series_lookup_witness :
fst (get_or_create_series default_config ∅ "AAPL") !! "AAPL"
= Some (Series.make 20 (span_to_alpha 50) 30) /\
size (fst (get_or_create_series default_config ∅ "AAPL")) = 1.
Proof.
destruct (get_or_create_series_lookup default_config ∅ "AAPL")
  as (Hl & _ & _ & Hnew & _).
destruct (Hnew eq_refl) as [Hs Hsize].
split; [rewrite Hl, Hs; reflexivity | exact Hsize].
Defined.

(** The two driver loops, as one step on the row of a line. *)
Lemma src_process_line_passes config st line :
SrcAnalyzer.process_line config st line
= if String.eqb line "" then Returns st
  else bind (SrcAnalyzer.parse_line line) (fun row =>
         Returns (if passes config row
                  then accept_row SrcAnalyzer.print_csv_row config st row
                  else st)).
Proof.
unfold SrcAnalyzer.process_line, passes, accept_row.
destruct (String.eqb line ""); [reflexivity|].
destruct (SrcAnalyzer.parse_line line) as [row|]; [|reflexivity].
cbn [bind].
destruct (is_valid row), (String.eqb (filter_symbol config) ""),
  (String.eqb (symbol row) (filter_symbol config));
  cbn [negb andb orb]; try reflexivity;
  destruct (get_or_create_series config (symbol_data st) (symbol row));
  reflexivity.
Qed.

Lemma root_process_line_passes config st line :
RootAnalyzer.process_line config st line
= if String.eqb line "" then st
  else if passes config (RootAnalyzer.parse_line line)
       then accept_row RootAnalyzer.print_csv_row config st
              (RootAnalyzer.parse_line line)
       else st.
Proof.
unfold RootAnalyzer.process_line, passes, accept_row.
destruct (String.eqb line ""); [reflexivity|].
destruct (is_valid (RootAnalyzer.parse_line line)),
  (String.eqb (filter_symbol config) ""),
  (String.eqb (symbol (RootAnalyzer.parse_line line)) (filter_symbol config));
  cbn [negb andb orb]; try reflexivity;
  destruct (get_or_create_series config (symbol_data st)
              (symbol (RootAnalyzer.parse_line line)));
  reflexivity.
Qed.

(** What accepting a row does to the state. *)
Lemma accept_row_written print config st row :
exists series,
  written (accept_row print config st row)
  = written st ++ [print config row series] /\
  symbol_data (accept_row print config st row) !! symbol row = Some series /\
  series = Series.update
             (default (Series.make (sma_window config)
                         (span_to_alpha (ema_span config))
                         (vol_window config))
                (symbol_data st !! symbol row))
             (price row) (volume row) (timestamp row).
Proof.
unfold accept_row, get_or_create_series.
destruct (symbol_data st !! symbol row) as [s0|] eqn:Hlook;
  cbn [written symbol_data default];
  (eexists; split; [reflexivity|]; split; [apply lookup_insert_eq|reflexivity]).
Qed.

Lemma accept_row_other print config st row sym :
sym <> symbol row ->
symbol_data (accept_row print config st row) !! sym = symbol_data st !! sym.
Proof.
intros Hne. unfold accept_row, get_or_create_series.
destruct (symbol_data st !! symbol row) as [s0|] eqn:Hlook;
  cbn [symbol_data]; rewrite !lookup_insert_ne by congruence; reflexivity.
Qed.

Lemma accept_row_dom print config st row :
dom (symbol_data (accept_row print config st row))
= {[symbol row]} ∪ dom (symbol_data st).
Proof.
unfold accept_row, get_or_create_series.
destruct (symbol_data st !! symbol row) as [s0|] eqn:Hlook;
  cbn [symbol_data]; rewrite !dom_insert_L; [reflexivity|].
rewrite (assoc_L (∪)), (idemp_L (∪)). reflexivity.
Qed.

(** Induction over a run: a relation between states that is reflexive and
    transitive and holds across the acceptance of every row the lines can
    give holds across the run. *)
Lemma src_process_lines_rel (R : analyzer_state -> analyzer_state -> Prop)
      (Q : ParsedRow -> Prop) config :
(forall st, R st st) ->
(forall a b c, R a b -> R b c -> R a c) ->
(forall st row, Q row -> passes config row = true ->
                R st (accept_row SrcAnalyzer.print_csv_row config st row)) ->
forall lines st st',
  Forall (fun line => forall row, SrcAnalyzer.parse_line line = Returns row ->
                                  Q row) lines ->
  SrcAnalyzer.process_lines config st lines = Returns st' ->
  R st st'.
Proof.
intros Hrefl Htrans Hstep.
induction lines as [|line lines IH]; intros st st' HQ Hrun.
- injection Hrun as <-. apply Hrefl.
- inversion HQ as [|? ? Hline Hrest]; subst.
  cbn [SrcAnalyzer.process_lines] in Hrun.
  rewrite src_process_line_passes in Hrun.
  destruct (String.eqb line ""); cbn [bind] in Hrun; [eauto|].
  destruct (SrcAnalyzer.parse_line line) as [row|]; [|discriminate Hrun].
  cbn [bind] in Hrun.
  destruct (passes config row) eqn:Hpass; [|eauto].
  eapply Htrans; [apply Hstep; [apply Hline; reflexivity | exact Hpass]|].
  eapply IH; eassumption.
Qed.

Lemma root_process_lines_rel (R : analyzer_state -> analyzer_state -> Prop)
      (Q : ParsedRow -> Prop) config :
(forall st, R st st) ->
(forall a b c, R a b -> R b c -> R a c) ->
(forall st row, Q row -> passes config row = true ->
                R st (accept_row RootAnalyzer.print_csv_row config st row)) ->
forall lines st,
  Forall (fun line => Q (RootAnalyzer.parse_line line)) lines ->
  R st (fold_left (RootAnalyzer.process_line config) lines st).
Proof.
intros Hrefl Htrans Hstep.
induction lines as [|line lines IH]; intros st HQ; cbn [fold_left].
- apply Hrefl.
- inversion HQ as [|? ? Hline Hrest]; subst.
  eapply Htrans; [|apply IH; exact Hrest].
  rewrite root_process_line_passes.
  destruct (String.eqb line ""); [apply Hrefl|].
  destruct (passes config (RootAnalyzer.parse_line line)) eqn:Hpass;
    [apply Hstep; assumption | apply Hrefl].
Qed.

Lemma Forall_trivial_rows {A} (P : A -> Prop) (l : list A) :
(forall x, P x) -> Forall P l.
Proof. intros H. apply Forall_forall. intros; apply H. Qed.

(** X7. A run never removes a symbol from the registry and never takes
    back or changes a row it wrote: the registry of the start is contained
    in the one of the end, and the rows written at the start are a prefix
    of the rows at the end, which are at most one more per line. *)
Theorem run_only_adds config (lines : list string) (st : analyzer_state) :
(forall st',
   SrcAnalyzer.process_lines config st lines = Returns st' ->
   dom (symbol_data st) ⊆ dom (symbol_data st') /\
   written st `prefix_of` written st' /\
   length (written st') <= length (written st) + length lines) /\
(let st' := fold_left (RootAnalyzer.process_line config) lines st in
 dom (symbol_data st) ⊆ dom (symbol_data st') /\
 written st `prefix_of` written st' /\
 length (written st') <= length (written st) + length lines).
Proof.
split.
- intros st' Hrun. split; [|split].
  + revert Hrun.
    apply (src_process_lines_rel
             (fun a b => dom (symbol_data a) ⊆ dom (symbol_data b))
             (fun _ => True)); try (intros; set_solver).
    * intros a row _ _. rewrite accept_row_dom. set_solver.
    * apply Forall_trivial_rows. trivial.
  + revert Hrun.
    apply (src_process_lines_rel
             (fun a b => written a `prefix_of` written b)
             (fun _ => True)).
    * reflexivity.
    * intros a b c Hab Hbc. etransitivity; eassumption.
    * intros a row _ _.
      destruct (accept_row_written SrcAnalyzer.print_csv_row config a row)
        as (series & -> & _). apply prefix_app_r. reflexivity.
    * apply Forall_trivial_rows. trivial.
  + revert st st' Hrun.
    induction lines as [|line lines IH]; intros st st' Hrun.
    * injection Hrun as <-. cbn. lia.
    * cbn [SrcAnalyzer.process_lines] in Hrun.
      rewrite src_process_line_passes in Hrun.
      destruct (String.eqb line ""); cbn [bind] in Hrun;
        [apply IH in Hrun; cbn [length]; lia|].
      destruct (SrcAnalyzer.parse_line line) as [row|]; [|discriminate Hrun].
      cbn [bind] in Hrun.
      destruct (passes config row);
        [|apply IH in Hrun; cbn [length]; lia].
      apply IH in Hrun.
      destruct (accept_row_written SrcAnalyzer.print_csv_row config st row)
        as (series & Hw & _).
      rewrite Hw, length_app in Hrun. cbn [length] in *. lia.
- cbn zeta. split; [|split].
  + apply (root_process_lines_rel
             (fun a b => dom (symbol_data a) ⊆ dom (symbol_data b))
             (fun _ => True)); try (intros; set_solver).
    * intros a row _ _. rewrite accept_row_dom. set_solver.
    * apply Forall_trivial_rows. trivial.
  + apply (root_process_lines_rel
             (fun a b => written a `prefix_of` written b)
             (fun _ => True)).
    * reflexivity.
    * intros a b c Hab Hbc. etransitivity; eassumption.
    * intros a row _ _.
      destruct (accept_row_written RootAnalyzer.print_csv_row config a row)
        as (series & -> & _). apply prefix_app_r. reflexivity.
    * apply Forall_trivial_rows. trivial.
  + revert st.
    induction lines as [|line lines IH]; intros st; cbn [fold_left].
    * cbn. lia.
    * specialize (IH (RootAnalyzer.process_line config st line)).
      rewrite root_process_line_passes in IH |- *.
      destruct (String.eqb line ""); [cbn [length]; lia|].
      destruct (passes config (RootAnalyzer.parse_line line));
        [|cbn [length]; lia].
      destruct (accept_row_written RootAnalyzer.print_csv_row config st
                  (RootAnalyzer.parse_line line)) as (series & Hw & _).
      rewrite Hw, length_app in IH. cbn [length] in *. lia.
Qed.

Lemma run_only_adds_witness :
length (written (fold_left (RootAnalyzer.process_line default_config)
                   ["t,A,1,1"; ""; "bad line"; "t,B,2,2"] initial_state))
<= 4.
Proof.
destruct (run_only_adds default_config
            ["t,A,1,1"; ""; "bad line"; "t,B,2,2"] initial_state)
  as [_ (_ & _ & Hlen)].
exact Hlen.
Defined.

(** The rows a run adds all satisfy a property that every printed row
    satisfies. *)
Lemma src_rows_added (P : list cell -> Prop) config :
(forall row series, passes config row = true ->
                    P (SrcAnalyzer.print_csv_row config row series)) ->
forall lines st st',
  SrcAnalyzer.process_lines config st lines = Returns st' ->
  exists new, written st' = written st ++ new /\ Forall P new.
Proof.
intros HP lines st st'.
apply (src_process_lines_rel
         (fun a b => exists new, written b = written a ++ new /\ Forall P new)
         (fun _ => True)).
- intros a. exists []. rewrite app_nil_r. split; [reflexivity | constructor].
- intros a b c (n1 & H1 & P1) (n2 & H2 & P2). exists (n1 ++ n2).
  rewrite H2, H1, app_assoc. split; [reflexivity | apply Forall_app; auto].
- intros a row _ Hpass.
  destruct (accept_row_written SrcAnalyzer.print_csv_row config a row)
    as (series & Hw & _).
  exists [SrcAnalyzer.print_csv_row config row series].
  split; [exact Hw | repeat constructor; apply HP; exact Hpass].
- apply Forall_trivial_rows. trivial.
Qed.

Lemma root_rows_added (P : list cell -> Prop) config :
(forall row series, passes config row = true ->
                    P (RootAnalyzer.print_csv_row config row series)) ->
forall lines st,
  exists new,
    written (fold_left (RootAnalyzer.process_line config) lines st)
    = written st ++ new /\ Forall P new.
Proof.
intros HP lines st.
apply (root_process_lines_rel
         (fun a b => exists new, written b = written a ++ new /\ Forall P new)
         (fun _ => True)).
- intros a. exists []. rewrite app_nil_r. split; [reflexivity | constructor].
- intros a b c (n1 & H1 & P1) (n2 & H2 & P2). exists (n1 ++ n2).
  rewrite H2, H1, app_assoc. split; [reflexivity | apply Forall_app; auto].
- intros a row _ Hpass.
  destruct (accept_row_written RootAnalyzer.print_csv_row config a row)
    as (series & Hw & _).
  exists [RootAnalyzer.print_csv_row config row series].
  split; [exact Hw | repeat constructor; apply HP; exact Hpass].
- apply Forall_trivial_rows. trivial.
Qed.

Lemma src_print_csv_row_shaped config row series :
row_shaped (length (SrcAnalyzer.print_csv_header config))
  (SrcAnalyzer.print_csv_row config row series).
Proof.
split.
- unfold SrcAnalyzer.print_csv_header, SrcAnalyzer.print_csv_row.
  destruct (output_sma config), (output_ema config), (output_vol config),
    (output_vwap config); reflexivity.
- exists row,
    ((if output_sma config then [Series.get_indicator series SMA] else [])
     ++ (if output_ema config then [Series.get_indicator series EMA] else [])
     ++ (if output_vol config
         then [Series.get_indicator series VOLATILITY] else [])
     ++ (if output_vwap config
         then [Series.get_indicator series VWAP] else [])).
  unfold SrcAnalyzer.print_csv_row.
  destruct (output_sma config), (output_ema config), (output_vol config),
    (output_vwap config); reflexivity.
Qed.

Lemma root_print_csv_row_shaped config row series :
row_shaped (length (RootAnalyzer.print_csv_header config))
  (RootAnalyzer.print_csv_row config row series).
Proof.
split.
- unfold RootAnalyzer.print_csv_header, RootAnalyzer.print_csv_row.
  destruct (output_sma config), (output_ema config), (output_vol config),
    (output_vwap config); reflexivity.
- exists row,
    ((if output_sma config then [Series.get_indicator series SMA] else [])
     ++ (if output_ema config then [Series.get_indicator series SMA] else [])
     ++ (if output_vol config
         then [Series.get_indicator series VOLATILITY] else [])
     ++ (if output_vwap config
         then [Series.get_indicator series VWAP] else [])).
  unfold RootAnalyzer.print_csv_row.
  destruct (output_sma config), (output_ema config), (output_vol config),
    (output_vwap config); reflexivity.
Qed.

(** X8. Every row a run writes has as many cells as the header has
    columns: the four fields of the line, then one real number for each
    selected indicator. The header has between four and eight columns. *)
Theorem rows_match_header config (lines : list string) (st : analyzer_state) :
(4 <= length (SrcAnalyzer.print_csv_header config) <= 8 /\
 length (RootAnalyzer.print_csv_header config)
 = length (SrcAnalyzer.print_csv_header config)) /\
(forall st',
   SrcAnalyzer.process_lines config st lines = Returns st' ->
   exists new,
     written st' = written st ++ new /\
     Forall (row_shaped (length (SrcAnalyzer.print_csv_header config))) new) /\
(exists new,
   written (fold_left (RootAnalyzer.process_line config) lines st)
   = written st ++ new /\
   Forall (row_shaped (length (RootAnalyzer.print_csv_header config))) new).
Proof.
split; [|split].
- unfold SrcAnalyzer.print_csv_header, RootAnalyzer.print_csv_header.
  destruct (output_sma config), (output_ema config), (output_vol config),
    (output_vwap config); cbn; lia.
- intros st'. apply src_rows_added.
  intros row series _. apply src_print_csv_row_shaped.
- apply root_rows_added.
  intros row series _. apply root_print_csv_row_shaped.
Qed.

Lemma rows_match_header_witness :
exists st',
  SrcAnalyzer.process_lines sma2_config initial_state
    ["t,A,1,1"; ""; "bad,line,x,y"; "t,B,2,2"] = Returns st' /\
  Forall (row_shaped 5) (written st').
Proof.
eexists. split; [vm_compute; reflexivity|].
destruct (rows_match_header sma2_config
            ["t,A,1,1"; ""; "bad,line,x,y"; "t,B,2,2"] initial_state)
  as (_ & Hsrc & _).
destruct (Hsrc _ ltac:(vm_compute; reflexivity)) as (new & Hw & Hshape).
cbn [initial_state written app] in Hw. rewrite Hw. exact Hshape.
Defined.

Lemma passes_filter config row :
passes config row = true -> filter_symbol config <> "" ->
symbol row = filter_symbol config.
Proof.
unfold passes. intros Hpass Hset.
destruct (is_valid row); [|discriminate Hpass].
destruct (String.eqb_spec (filter_symbol config) "") as [|_]; [contradiction|].
destruct (String.eqb_spec (symbol row) (filter_symbol config)) as [Heq|];
  [exact Heq | discriminate Hpass].
Qed.

(** X9. Under a symbol filter a run creates no series but the one of the
    filter symbol, and every row it writes carries that symbol. *)
Theorem filter_confines_run config (lines : list string)
        (st : analyzer_state) :
filter_symbol config <> "" ->
let of_filter cells := cells !! 1 = Some (Text (filter_symbol config)) in
(forall st',
   SrcAnalyzer.process_lines config st lines = Returns st' ->
   dom (symbol_data st') ⊆ dom (symbol_data st) ∪ {[filter_symbol config]} /\
   exists new, written st' = written st ++ new /\ Forall of_filter new) /\
(let st' := fold_left (RootAnalyzer.process_line config) lines st in
 dom (symbol_data st') ⊆ dom (symbol_data st) ∪ {[filter_symbol config]} /\
 exists new, written st' = written st ++ new /\ Forall of_filter new).
Proof.
intros Hset of_filter. split.
- intros st' Hrun. split.
  + revert Hrun.
    apply (src_process_lines_rel
             (fun a b => dom (symbol_data b)
                         ⊆ dom (symbol_data a) ∪ {[filter_symbol config]})
             (fun _ => True)).
    * intros a. apply union_subseteq_l.
    * intros a b c Hab Hbc. etransitivity; [exact Hbc|].
      apply union_least; [exact Hab | apply union_subseteq_r].
    * intros a row _ Hpass. rewrite accept_row_dom.
      rewrite (passes_filter config row Hpass Hset).
      apply union_least; [apply union_subseteq_r | apply union_subseteq_l].
    * apply Forall_trivial_rows. trivial.
  + revert Hrun. apply src_rows_added.
    intros row series Hpass. unfold of_filter.
    rewrite <- (passes_filter config row Hpass Hset). reflexivity.
- cbn zeta. split.
  + apply (root_process_lines_rel
             (fun a b => dom (symbol_data b)
                         ⊆ dom (symbol_data a) ∪ {[filter_symbol config]})
             (fun _ => True)).
    * intros a. apply union_subseteq_l.
    * intros a b c Hab Hbc. etransitivity; [exact Hbc|].
      apply union_least; [exact Hab | apply union_subseteq_r].
    * intros a row _ Hpass. rewrite accept_row_dom.
      rewrite (passes_filter config row Hpass Hset).
      apply union_least; [apply union_subseteq_r | apply union_subseteq_l].
    * apply Forall_trivial_rows. trivial.
  + apply root_rows_added.
    intros row series Hpass. unfold of_filter.
    rewrite <- (passes_filter config row Hpass Hset). reflexivity.
Qed.

Lemma filter_confines_run_witness :
dom (symbol_data (fold_left (RootAnalyzer.process_line aapl_only_config)
                    ["t,MSFT,1,1"; "t,AAPL,2,2"; "t,GOOG,3,3"] initial_state))
⊆ dom (symbol_data initial_state) ∪ {["AAPL"]}.
Proof.
destruct (filter_confines_run aapl_only_config
            ["t,MSFT,1,1"; "t,AAPL,2,2"; "t,GOOG,3,3"] initial_state)
  as [_ [Hdom _]]; [discriminate|].
exact Hdom.
Defined.

Lemma tail_length {A} (l : list A) : length (tail l) = length l - 1.
Proof. destruct l; cbn [tail length]; lia. Qed.

Lemma to_size_t_nonneg z : (0 <= to_size_t z)%Z.
Proof. unfold to_size_t. apply Z.mod_pos_bound. lia. Qed.

Lemma fresh_series_configured config : series_configured config (fresh_series config).
Proof.
unfold series_configured, fresh_series. cbn.
repeat split; try reflexivity; apply to_size_t_nonneg.
Qed.

Lemma Series_update_configured config s p v ts :
series_configured config s ->
series_configured config (Series.update s p v ts).
Proof.
intros (Hw & Ha & Hv & Hlen & Hvlen).
unfold Series.update, Series.update_traced.
destruct (Series.last_price s =? 0)%float; cbn [fst];
  unfold series_configured;
  cbn [Series.sma Series.ema Series.volatility]; [tauto|].
split; [rewrite SMA_update_window_size; exact Hw|].
split; [unfold EMAIndicator.update;
        destruct (EMAIndicator.first_price (Series.ema s)); exact Ha|].
split; [rewrite Volatility_update_window_size; exact Hv|].
split.
- unfold SMAIndicator.update. rewrite Hw.
  destruct (Z.ltb_spec (to_size_t (sma_window config))
              (Z.of_nat (length (SMAIndicator.prices (Series.sma s) ++ [p]))))
    as [Hfull|Hroom]; cbn [SMAIndicator.prices].
  + rewrite tail_length, length_app. cbn [length]. lia.
  + exact Hroom.
- unfold VolatilityIndicator.update. rewrite Hv.
  match goal with
  | |- context [(?a <? ?b)%Z] => destruct (Z.ltb_spec a b) as [Hfull|Hroom]
  end; cbn [VolatilityIndicator.returns].
  + rewrite tail_length, length_app. cbn [length]. lia.
  + exact Hroom.
Qed.

Lemma accept_row_configured print config st row :
map_Forall (fun _ => series_configured config) (symbol_data st) ->
map_Forall (fun _ => series_configured config)
  (symbol_data (accept_row print config st row)).
Proof.
intros Hall. unfold accept_row, get_or_create_series.
destruct (symbol_data st !! symbol row) as [s0|] eqn:Hlook; cbn [symbol_data].
- apply map_Forall_insert_2; [|exact Hall].
  apply Series_update_configured. exact (Hall _ _ Hlook).
- apply map_Forall_insert_2.
  + apply Series_update_configured. apply fresh_series_configured.
  + apply map_Forall_insert_2; [apply fresh_series_configured | exact Hall].
Qed.

(** X10. Every series of the registry was built from the configuration of
    the run and stays within its windows: its SMA window is [sma_window],
    its smoothing factor [2 / (ema_span + 1)], its volatility window
    [vol_window] as a [size_t], and it never holds more prices or returns
    than these windows (taken as [size_t]) allow. A run keeps this true. *)
Theorem registry_stays_configured config (lines : list string)
        (st : analyzer_state) :
map_Forall (fun _ => series_configured config) (symbol_data st) ->
(forall st',
   SrcAnalyzer.process_lines config st lines = Returns st' ->
   map_Forall (fun _ => series_configured config) (symbol_data st')) /\
map_Forall (fun _ => series_configured config)
  (symbol_data (fold_left (RootAnalyzer.process_line config) lines st)).
Proof.
intros Hst. split.
- intros st' Hrun. revert Hst. revert Hrun.
  apply (src_process_lines_rel
           (fun a b =>
              map_Forall (fun _ => series_configured config) (symbol_data a) ->
              map_Forall (fun _ => series_configured config) (symbol_data b))
           (fun _ => True)); auto.
  + intros a row _ _. apply accept_row_configured.
  + apply Forall_trivial_rows. trivial.
- revert Hst.
  apply (root_process_lines_rel
           (fun a b =>
              map_Forall (fun _ => series_configured config) (symbol_data a) ->
              map_Forall (fun _ => series_configured config) (symbol_data b))
           (fun _ => True)); auto.
  + intros a row _ _. apply accept_row_configured.
  + apply Forall_trivial_rows. trivial.
Qed.

Lemma registry_stays_configured_witness :
map_Forall (fun _ => series_configured sma2_config)
  (symbol_data (RootAnalyzer.process_file sma2_config scenario_lines)).
Proof.
apply (registry_stays_configured sma2_config scenario_lines initial_state).
apply map_Forall_empty.
Defined.

Lemma trades_of_cons sym row rows :
trades_of sym (row :: rows)
= if String.eqb (symbol row) sym
  then (price row, volume row, timestamp row) :: trades_of sym rows
  else trades_of sym rows.
Proof.
unfold trades_of. cbn [List.filter].
destruct (String.eqb (symbol row) sym); reflexivity.
Qed.

Lemma accept_row_entry print config st row sym :
symbol_data (accept_row print config st row) !! sym
= if String.eqb (symbol row) sym
  then Some (Series.update (default (fresh_series config)
                              (symbol_data st !! sym))
               (price row) (volume row) (timestamp row))
  else symbol_data st !! sym.
Proof.
destruct (String.eqb_spec (symbol row) sym) as [<-|Hne].
- destruct (accept_row_written print config st row) as (series & _ & -> & ->).
  reflexivity.
- apply accept_row_other. congruence.
Qed.

(** The entry of a symbol after accepting rows one by one. *)
Lemma accepted_rows_entry print config sym rows : forall st,
symbol_data (fold_left (accept_row print config) rows st) !! sym
= match trades_of sym rows with
  | [] => symbol_data st !! sym
  | trades =>
      Some (Series_feed (default (fresh_series config)
                           (symbol_data st !! sym)) trades)
  end.
Proof.
induction rows as [|row rows IH]; intros st; cbn [fold_left]; [reflexivity|].
rewrite IH, trades_of_cons, accept_row_entry.
destruct (String.eqb (symbol row) sym); [|reflexivity].
cbn [default]. destruct (trades_of sym rows); reflexivity.
Qed.

Lemma src_run_is_accepts config lines : forall st st',
SrcAnalyzer.process_lines config st lines = Returns st' ->
st' = fold_left (accept_row SrcAnalyzer.print_csv_row config)
        (src_accepted config lines) st.
Proof.
induction lines as [|line lines IH]; intros st st' Hrun.
- injection Hrun as <-. reflexivity.
- cbn [SrcAnalyzer.process_lines] in Hrun.
  rewrite src_process_line_passes in Hrun.
  unfold src_accepted. cbn [flat_map]. fold (src_accepted config lines).
  rewrite fold_left_app.
  destruct (String.eqb line ""); cbn [bind] in Hrun; [apply IH; exact Hrun|].
  destruct (SrcAnalyzer.parse_line line) as [row|]; [|discriminate Hrun].
  cbn [bind] in Hrun.
  destruct (passes config row); apply IH; exact Hrun.
Qed.

Lemma root_run_is_accepts config lines : forall st,
fold_left (RootAnalyzer.process_line config) lines st
= fold_left (accept_row RootAnalyzer.print_csv_row config)
    (root_accepted config lines) st.
Proof.
induction lines as [|line lines IH]; intros st; [reflexivity|].
cbn [fold_left]. rewrite root_process_line_passes.
unfold root_accepted. cbn [flat_map]. fold (root_accepted config lines).
rewrite fold_left_app.
destruct (String.eqb line ""); [apply IH|].
destruct (passes config (RootAnalyzer.parse_line line)); apply IH.
Qed.

(** X11. The registry keeps the symbols apart. After a run, the series of a
    symbol is the series that was there at the start, or else a new one of
    the configuration, fed the trades of the accepted rows of that symbol
    and of no other, in the order of the lines; a symbol with no accepted
    row keeps the entry it had, or none. *)
Theorem registry_entry_is_series_of_its_rows config (sym : string)
        (lines : list string) (st : analyzer_state) :
(forall st',
   SrcAnalyzer.process_lines config st lines = Returns st' ->
   symbol_data st' !! sym
   = match trades_of sym (src_accepted config lines) with
     | [] => symbol_data st !! sym
     | trades =>
         Some (Series_feed (default (fresh_series config)
                              (symbol_data st !! sym)) trades)
     end) /\
symbol_data (fold_left (RootAnalyzer.process_line config) lines st) !! sym
= match trades_of sym (root_accepted config lines) with
  | [] => symbol_data st !! sym
  | trades =>
      Some (Series_feed (default (fresh_series config)
                           (symbol_data st !! sym)) trades)
  end.
Proof.
split.
- intros st' Hrun. rewrite (src_run_is_accepts _ _ _ _ Hrun).
  apply accepted_rows_entry.
- rewrite root_run_is_accepts. apply accepted_rows_entry.
Qed.

Lemma registry_entry_is_series_of_its_rows_witness :
exists st',
  SrcAnalyzer.process_file default_config
    ["t1,A,10,1"; "t1,B,500,5"; "t2,A,20,2"; "t3,B,700,7"; "t4,A,30,3"]
  = Returns st' /\
  symbol_data st' !! "A"
  = Some (Series_feed (fresh_series default_config)
            [(10, 1%Z, "t1"); (20, 2%Z, "t2"); (30, 3%Z, "t4")]%float).
Proof.
eexists. split; [vm_compute; reflexivity|].
destruct (registry_entry_is_series_of_its_rows default_config "A"
            ["t1,A,10,1"; "t1,B,500,5"; "t2,A,20,2"; "t3,B,700,7"; "t4,A,30,3"]
            initial_state) as [Hsrc _].
rewrite (Hsrc _ ltac:(vm_compute; reflexivity)). reflexivity.
Defined.

(** X12. The rows written are the accepted rows, one each and in the
    order of the lines: their first four cells are the fields of these
    rows. *)
Theorem written_rows_echo_accepted config (lines : list string)
        (st : analyzer_state) :
(forall st',
   SrcAnalyzer.process_lines config st lines = Returns st' ->
   map (take 4) (written st')
   = map (take 4) (written st) ++ map echo (src_accepted config lines)) /\
map (take 4) (written (fold_left (RootAnalyzer.process_line config) lines st))
= map (take 4) (written st) ++ map echo (root_accepted config lines).
Proof.
assert (Hacc : forall print,
           (forall row series, take 4 (print config row series) = echo row) ->
           forall rows st0,
             map (take 4) (written (fold_left (accept_row print config) rows st0))
             = map (take 4) (written st0) ++ map echo rows).
{ intros print Hprint rows.
  induction rows as [|row rows IH]; intros st0; cbn [fold_left map].
  - rewrite app_nil_r. reflexivity.
  - rewrite IH.
    destruct (accept_row_written print config st0 row) as (series & -> & _).
    rewrite map_app, <- app_assoc. cbn [map app]. rewrite Hprint. reflexivity. }
split.
- intros st' Hrun. rewrite (src_run_is_accepts _ _ _ _ Hrun).
  apply Hacc. reflexivity.
- rewrite root_run_is_accepts. apply Hacc. reflexivity.
Qed.

Lemma written_rows_echo_accepted_witness :
map (take 4) (written (RootAnalyzer.process_file default_config
                         ["t1,A,10,1"; ""; "garbage"; "t2,B,20,2"]))
= [[Text "t1"; Text "A"; Real 10; Whole 1];
   [Text "t2"; Text "B"; Real 20; Whole 2]].
Proof.
destruct (written_rows_echo_accepted default_config
            ["t1,A,10,1"; ""; "garbage"; "t2,B,20,2"] initial_state)
  as [_ Hroot].
unfold RootAnalyzer.process_file. rewrite Hroot. vm_compute. reflexivity.
Defined.

(** X13. One short line stops the analyzer under [src/]: when a line that
    is not empty has fewer than two commas, the run does not return, where
    ever the line stands in the file and whatever the other lines are; the
    null start of its third field is handed to [strtod]. *)
Theorem src_short_line_stops_run config (lines : list string) (line : string) :
In line lines -> line <> "" -> commas line < 2 ->
forall st, SrcAnalyzer.process_lines config st lines = NullDeref.
Proof.
intros Hin Hne Hshort.
induction lines as [|l lines IH]; intros st; [destruct Hin|].
cbn [SrcAnalyzer.process_lines].
destruct (SrcAnalyzer.process_line config st l) as [st1|] eqn:Hstep;
  [|reflexivity].
cbn [bind]. destruct Hin as [->|Hin]; [|apply IH; exact Hin].
exfalso. unfold SrcAnalyzer.process_line in Hstep.
destruct (String.eqb_spec line "") as [|_]; [contradiction|].
rewrite parse_line_null_deref in Hstep by exact Hshort.
discriminate Hstep.
Qed.

Lemma src_short_line_stops_run_witness :
SrcAnalyzer.process_file default_config
  ["t1,A,10,1"; "timestamp"; "t2,A,20,2"] = NullDeref /\
written (RootAnalyzer.process_file default_config
           ["t1,A,10,1"; "timestamp"; "t2,A,20,2"])
= [[Text "t1"; Text "A"; Real 10; Whole 1];
   [Text "t2"; Text "A"; Real 20; Whole 2]].
Proof.
split; [|vm_compute; reflexivity].
apply (src_short_line_stops_run default_config _ "timestamp").
- right. left. reflexivity.
- discriminate.
- cbn. lia.
Defined.

(* ===================================================================== *)
(** * The row parsers in terms of the fields                              *)
(* ===================================================================== *)

(** [strtod] does not read past a comma. *)

Lemma span_length_le p a : CLib.span_length p a <= String.length a.
Proof.
induction a as [|c a IH]; cbn [CLib.span_length String.length]; [lia|].
destruct (p c); lia.
Qed.

Lemma span_length_stop p a c r :
p c = false ->
CLib.span_length p (a +:+ String c r) = CLib.span_length p a.
Proof.
intros Hc. induction a as [|x a IH].
- rewrite string_app_nil_l. cbn [CLib.span_length]. rewrite Hc. reflexivity.
- rewrite string_app_cons. cbn [CLib.span_length]. rewrite IH. reflexivity.
Qed.

Lemma drop_chars_app n : forall a s,
n <= String.length a ->
CLib.drop_chars n (a +:+ s) = CLib.drop_chars n a +:+ s.
Proof.
induction n as [|n IH]; intros a s Hn.
- destruct a; reflexivity.
- destruct a as [|c a]; [cbn in Hn; lia|].
  rewrite string_app_cons. cbn [CLib.drop_chars]. apply IH.
  cbn [String.length] in Hn. lia.
Qed.

Lemma drop_chars_length n : forall a,
String.length (CLib.drop_chars n a) = String.length a - n.
Proof.
induction n as [|n IH]; intros a.
- destruct a; cbn [CLib.drop_chars]; lia.
- destruct a as [|c a]; cbn [CLib.drop_chars String.length]; [lia | apply IH].
Qed.

Lemma drop_chars_all a s : CLib.drop_chars (String.length a) (a +:+ s) = s.
Proof.
induction a as [|c a IH]; [destruct s; reflexivity|].
rewrite string_app_cons. cbn [String.length CLib.drop_chars]. exact IH.
Qed.

Lemma digits_value_app base value n : forall a s acc,
n <= String.length a ->
CLib.digits_value base value n (a +:+ s) acc
= CLib.digits_value base value n a acc.
Proof.
induction n as [|n IH]; intros a s acc Hn.
- destruct a, s; reflexivity.
- destruct a as [|c a]; [cbn in Hn; lia|].
  rewrite string_app_cons. cbn [CLib.digits_value]. apply IH.
  cbn [String.length] in Hn. lia.
Qed.

Lemma sign_of_cons c x y :
CLib.sign_of (String c x) = CLib.sign_of (String c y).
Proof. destruct c as [[] [] [] [] [] [] [] []]; reflexivity. Qed.

Lemma sign_of_stop a r : CLib.sign_of (a +:+ String "," r) = CLib.sign_of a.
Proof.
destruct a as [|c a]; [reflexivity|].
rewrite string_app_cons. apply sign_of_cons.
Qed.

Lemma sign_of_le a : snd (CLib.sign_of a) <= String.length a.
Proof.
destruct a as [|c a]; [cbn; lia|].
rewrite (sign_of_cons c a ""). cbn [String.length].
destruct c as [[] [] [] [] [] [] [] []]; cbn; lia.
Qed.

Lemma starts_with_ci_stop w : forall a r,
comma_free w ->
CLib.starts_with_ci w (a +:+ String "," r) = CLib.starts_with_ci w a.
Proof.
induction w as [|x w IH]; intros a r Hw; [reflexivity|].
destruct Hw as [Hx Hw].
destruct a as [|c a].
- rewrite string_app_nil_l. cbn [CLib.starts_with_ci].
  change (CLib.to_lower ",") with ","%char.
  destruct (Ascii.eqb_spec x ","); [contradiction | reflexivity].
- rewrite string_app_cons. cbn [CLib.starts_with_ci]. rewrite IH by exact Hw.
  reflexivity.
Qed.

Lemma starts_with_ci_length w : forall a,
CLib.starts_with_ci w a = true -> String.length w <= String.length a.
Proof.
induction w as [|x w IH]; intros a H; [cbn; lia|].
destruct a as [|c a]; [discriminate H|].
cbn [CLib.starts_with_ci] in H. apply andb_true_iff in H as [_ H].
cbn [String.length]. apply IH in H. lia.
Qed.

Lemma exponent_part_stop marker a r :
marker ","%char = false ->
CLib.exponent_part marker (a +:+ String "," r) = CLib.exponent_part marker a.
Proof.
intros Hm. destruct a as [|c a].
- rewrite string_app_nil_l. cbn [CLib.exponent_part]. rewrite Hm. reflexivity.
- rewrite string_app_cons. cbn [CLib.exponent_part].
  destruct (marker c); [|reflexivity].
  rewrite sign_of_stop.
  pose proof (sign_of_le a) as Hk.
  destruct (CLib.sign_of a) as [neg k]. cbn [snd] in Hk.
  rewrite drop_chars_app by exact Hk.
  rewrite span_length_stop by reflexivity.
  pose proof (span_length_le CLib.isdigit (CLib.drop_chars k a)) as Hd.
  destruct (CLib.span_length CLib.isdigit (CLib.drop_chars k a)) as [|d];
    [reflexivity|].
  rewrite digits_value_app by exact Hd. reflexivity.
Qed.

(** The shape of a mantissa, with the test of the point written out. *)
Lemma mantissa_shape_eq p s :
CLib.mantissa_shape p s
= let d1 := CLib.span_length p s in
  match CLib.drop_chars d1 s with
  | String c s1 =>
      if Ascii.eqb c "." then
        let d2 := CLib.span_length p s1 in
        match d1, d2 with
        | O, O => (0, 0, 0)
        | _, _ => (d1, d2, d1 + 1 + d2)
        end
      else (d1, 0, d1)
  | EmptyString => (d1, 0, d1)
  end.
Proof.
unfold CLib.mantissa_shape. cbn zeta.
destruct (CLib.drop_chars (CLib.span_length p s) s) as [|c s1]; [reflexivity|].
destruct c as [[] [] [] [] [] [] [] []]; reflexivity.
Qed.

Lemma mantissa_shape_stop p a r :
p ","%char = false ->
CLib.mantissa_shape p (a +:+ String "," r) = CLib.mantissa_shape p a.
Proof.
intros Hp. rewrite !mantissa_shape_eq. cbn zeta.
rewrite span_length_stop by exact Hp.
rewrite drop_chars_app by apply span_length_le.
destruct (CLib.drop_chars (CLib.span_length p a) a) as [|c a1].
- rewrite string_app_nil_l. reflexivity.
- rewrite string_app_cons.
  destruct (Ascii.eqb c "."); [|reflexivity].
  rewrite span_length_stop by exact Hp. reflexivity.
Qed.

Lemma mantissa_shape_bounds p a d1 d2 len :
CLib.mantissa_shape p a = (d1, d2, len) ->
d1 <= String.length a /\ len <= String.length a /\
(d2 = 0 \/ d1 + 1 + d2 <= String.length a).
Proof.
rewrite mantissa_shape_eq. cbn zeta.
pose proof (span_length_le p a) as H1.
pose proof (drop_chars_length (CLib.span_length p a) a) as Hdrop.
destruct (CLib.drop_chars (CLib.span_length p a) a) as [|c a1].
- intros [= <- <- <-]. lia.
- cbn [String.length] in Hdrop.
  destruct (Ascii.eqb c "."); [|intros [= <- <- <-]; lia].
  pose proof (span_length_le p a1) as H2.
  destruct (CLib.span_length p a) as [|n1],
           (CLib.span_length p a1) as [|n2];
    intros [= <- <- <-]; lia.
Qed.

Lemma mantissa_value_app base value d1 d2 a s :
d1 <= String.length a ->
d2 = 0 \/ d1 + 1 + d2 <= String.length a ->
CLib.mantissa_value base value d1 d2 (a +:+ s)
= CLib.mantissa_value base value d1 d2 a.
Proof.
intros H1 H2. unfold CLib.mantissa_value.
rewrite digits_value_app by exact H1.
destruct H2 as [->|H2].
- destruct (CLib.drop_chars (d1 + 1) (a +:+ s)),
           (CLib.drop_chars (d1 + 1) a); reflexivity.
- rewrite drop_chars_app by lia.
  apply digits_value_app. rewrite drop_chars_length. lia.
Qed.

Lemma decimal_body_stop neg a r :
CLib.decimal_body neg (a +:+ String "," r) = CLib.decimal_body neg a.
Proof.
unfold CLib.decimal_body. rewrite mantissa_shape_stop by reflexivity.
destruct (CLib.mantissa_shape CLib.isdigit a) as [[d1 d2] len] eqn:Hshape.
destruct (mantissa_shape_bounds _ _ _ _ _ Hshape) as (H1 & Hlen & H2).
destruct len as [|len]; [reflexivity|].
rewrite mantissa_value_app by assumption.
rewrite drop_chars_app by exact Hlen.
rewrite exponent_part_stop by reflexivity. reflexivity.
Qed.

Lemma hex_body_stop neg a r :
CLib.hex_body neg (a +:+ String "," r) = CLib.hex_body neg a.
Proof.
unfold CLib.hex_body. rewrite mantissa_shape_stop by reflexivity.
destruct (CLib.mantissa_shape CLib.isxdigit a) as [[d1 d2] len] eqn:Hshape.
destruct (mantissa_shape_bounds _ _ _ _ _ Hshape) as (H1 & Hlen & H2).
destruct len as [|len]; [reflexivity|].
rewrite mantissa_value_app by assumption.
rewrite drop_chars_app by exact Hlen.
rewrite exponent_part_stop by reflexivity. reflexivity.
Qed.

Lemma nan_payload_length_eq s :
CLib.nan_payload_length s
= match s with
  | String c s1 =>
      if Ascii.eqb c "(" then
        let k := CLib.span_length CLib.is_nchar s1 in
        match CLib.drop_chars k s1 with
        | String c' _ => if Ascii.eqb c' ")" then k + 2 else 0
        | EmptyString => 0
        end
      else 0
  | EmptyString => 0
  end.
Proof.
destruct s as [|c s1]; [reflexivity|].
destruct c as [[] [] [] [] [] [] [] []]; try reflexivity.
cbn [CLib.nan_payload_length Ascii.eqb Bool.eqb]. cbn zeta.
destruct (CLib.drop_chars (CLib.span_length CLib.is_nchar s1) s1)
  as [|c' s2]; [reflexivity|].
destruct c' as [[] [] [] [] [] [] [] []]; reflexivity.
Qed.

Lemma nan_payload_length_stop a r :
CLib.nan_payload_length (a +:+ String "," r) = CLib.nan_payload_length a.
Proof.
rewrite !nan_payload_length_eq.
destruct a as [|c a]; [reflexivity|].
rewrite string_app_cons.
destruct (Ascii.eqb c "("); [|reflexivity]. cbn zeta.
rewrite span_length_stop by reflexivity.
rewrite drop_chars_app by apply span_length_le.
destruct (CLib.drop_chars (CLib.span_length CLib.is_nchar a) a) as [|c' a'];
  reflexivity.
Qed.

Lemma strtod_body_stop neg a r :
CLib.strtod_body neg (a +:+ String "," r) = CLib.strtod_body neg a.
Proof.
unfold CLib.strtod_body.
rewrite !starts_with_ci_stop by (cbn; repeat split; discriminate).
destruct (CLib.starts_with_ci "infinity" a); [reflexivity|].
destruct (CLib.starts_with_ci "inf" a); [reflexivity|].
destruct (CLib.starts_with_ci "nan" a) eqn:Hnan.
- assert (H3 : 3 <= String.length a)
    by exact (starts_with_ci_length _ _ Hnan).
  rewrite drop_chars_app by exact H3.
  rewrite nan_payload_length_stop. reflexivity.
- destruct (CLib.starts_with_ci "0x" a) eqn:Hhex.
  + assert (H2 : 2 <= String.length a)
      by exact (starts_with_ci_length _ _ Hhex).
    rewrite drop_chars_app by exact H2.
    rewrite hex_body_stop, decimal_body_stop. reflexivity.
  + apply decimal_body_stop.
Qed.

Lemma strtod_parse_stop a r :
CLib.strtod_parse (a +:+ String "," r) = CLib.strtod_parse a.
Proof.
unfold CLib.strtod_parse.
rewrite span_length_stop by reflexivity.
rewrite drop_chars_app by apply span_length_le.
rewrite sign_of_stop.
pose proof (sign_of_le (CLib.drop_chars (CLib.span_length CLib.isspace a) a))
  as Hk.
destruct (CLib.sign_of (CLib.drop_chars (CLib.span_length CLib.isspace a) a))
  as [neg k]. cbn [snd] in Hk.
rewrite drop_chars_app by exact Hk.
rewrite strtod_body_stop. reflexivity.
Qed.

Lemma strtod_string_stop a r :
CLib.strtod_string (a +:+ String "," r) = CLib.strtod_string a.
Proof. unfold CLib.strtod_string. rewrite strtod_parse_stop. reflexivity. Qed.

(** The tokenizer on a line of at least four fields. *)

Lemma split_commas_join p ps :
comma_free p ->
split_commas (join_commas (p :: ps))
= p :: match ps with [] => [] | _ => split_commas (join_commas ps) end.
Proof.
intros Hp. rewrite join_commas_head, split_commas_app by exact Hp.
destruct ps as [|q ps].
- cbn [split_commas]. rewrite string_app_nil_r. reflexivity.
- cbn [split_commas Ascii.eqb Bool.eqb]. rewrite string_app_nil_r. reflexivity.
Qed.

Lemma split_csv_line_four ts sym p v rest :
comma_free ts -> comma_free sym -> comma_free p -> comma_free v ->
split_csv_line (join_commas (ts :: sym :: p :: v :: rest))
= spans_of 0 [ts; sym; p; v].
Proof.
intros Hts Hsym Hp Hv. rewrite split_csv_line_pieces.
rewrite (split_commas_join ts) by exact Hts.
rewrite (split_commas_join sym) by exact Hsym.
rewrite (split_commas_join p) by exact Hp.
rewrite (split_commas_join v) by exact Hv.
cbn [firstn]. unfold pad_fields. cbn [spans_of length Nat.sub replicate].
rewrite app_nil_r. reflexivity.
Qed.

Lemma substring_prefix b t : substring 0 (String.length b) (b +:+ t) = b.
Proof. exact (string_substring_app "" b t). Qed.

Lemma substring_skip a s n :
substring (String.length a + 1) n (a +:+ String "," s) = substring 0 n s.
Proof.
induction a as [|c a IH].
- rewrite string_app_nil_l. cbn [String.length Nat.add substring].
  destruct s; reflexivity.
- rewrite string_app_cons. cbn [String.length Nat.add substring]. exact IH.
Qed.

Lemma substring_shift a s o k n :
o = String.length a + 1 + k ->
substring o n (a +:+ String "," s) = substring k n s.
Proof.
intros ->. induction a as [|c a IH].
- rewrite string_app_nil_l. cbn [String.length Nat.add substring].
  reflexivity.
- rewrite string_app_cons. cbn [String.length Nat.add substring]. exact IH.
Qed.

Lemma drop_chars_shift a s o k :
o = String.length a + 1 + k ->
CLib.drop_chars o (a +:+ String "," s) = CLib.drop_chars k s.
Proof.
intros ->. induction a as [|c a IH].
- rewrite string_app_nil_l. reflexivity.
- rewrite string_app_cons. cbn [String.length Nat.add CLib.drop_chars].
  exact IH.
Qed.

(** The texts and the conversions [parse_line] sees on such a line. *)
Section FourFields.
Variables (ts sym p v : string) (rest : list string).
Hypotheses (Hts : comma_free ts) (Hsym : comma_free sym)
           (Hp : comma_free p) (Hv : comma_free v).

Let line := join_commas (ts :: sym :: p :: v :: rest).
Let after := match rest with [] => "" | _ => String "," (join_commas rest) end.

Lemma four_fields_line :
line = ts +:+ String "," (sym +:+ String "," (p +:+ String "," (v +:+ after))).
Proof.
unfold line, after. rewrite !join_commas_cons, join_commas_head. reflexivity.
Qed.

Lemma four_fields_timestamp :
field_string line (field_at (split_csv_line line) 0) = ts.
Proof.
unfold line at 2. rewrite split_csv_line_four by assumption.
cbn [spans_of field_at nth field_string FieldRange.start FieldRange.length].
rewrite four_fields_line. apply substring_prefix.
Qed.

Lemma four_fields_symbol :
field_string line (field_at (split_csv_line line) 1) = sym.
Proof.
unfold line at 2. rewrite split_csv_line_four by assumption.
cbn [spans_of field_at nth field_string FieldRange.start FieldRange.length].
rewrite four_fields_line. cbn [Nat.add].
rewrite substring_skip. apply substring_prefix.
Qed.

Lemma four_fields_price :
field_string line (field_at (split_csv_line line) 2) = p.
Proof.
unfold line at 2. rewrite split_csv_line_four by assumption.
cbn [spans_of field_at nth field_string FieldRange.start FieldRange.length].
rewrite four_fields_line. cbn [Nat.add].
rewrite (substring_shift ts _ _ (String.length sym + 1)) by lia.
rewrite substring_skip. apply substring_prefix.
Qed.

Lemma four_fields_volume :
field_string line (field_at (split_csv_line line) 3) = v.
Proof.
unfold line at 2. rewrite split_csv_line_four by assumption.
cbn [spans_of field_at nth field_string FieldRange.start FieldRange.length].
rewrite four_fields_line. cbn [Nat.add].
rewrite (substring_shift ts _ _ (String.length sym + 1 + String.length p + 1))
  by lia.
rewrite (substring_shift sym _ _ (String.length p + 1)) by lia.
rewrite substring_skip. apply substring_prefix.
Qed.

Lemma four_fields_strtod :
CLib.strtod line (FieldRange.start (field_at (split_csv_line line) 2))
= let '(x, n) := CLib.strtod_string p in
  Returns (x, Data (String.length ts + 1 + String.length sym + 1 + n)).
Proof.
unfold line at 2. rewrite split_csv_line_four by assumption.
cbn [spans_of field_at nth FieldRange.start]. unfold CLib.strtod.
rewrite four_fields_line. cbn [Nat.add].
rewrite (drop_chars_shift ts _ _ (String.length sym + 1 + 0)) by lia.
rewrite (drop_chars_shift sym _ _ 0) by lia.
replace (CLib.drop_chars 0 (p +:+ String "," (v +:+ after)))
  with (p +:+ String "," (v +:+ after))
  by (destruct (p +:+ String "," (v +:+ after)); reflexivity).
rewrite strtod_string_stop.
destruct (CLib.strtod_string p) as [x n]. reflexivity.
Qed.

Lemma four_fields_price_span :
field_at (split_csv_line line) 2
= FieldRange.mk (Data (String.length ts + 1 + String.length sym + 1))
                (String.length p).
Proof.
unfold line. rewrite split_csv_line_four by assumption. reflexivity.
Qed.

End FourFields.

(** X14. On a line whose first four fields are [ts], [sym], [p] and [v],
    [parse_line] under [src/] returns, without a null dereference, the row
    built from these four texts alone: [strtod] reads the price up to the
    comma after it, and whatever follows the fourth field is ignored. *)
Theorem src_parse_line_reads_four_fields ts sym p v rest :
comma_free ts -> comma_free sym -> comma_free p -> comma_free v ->
SrcAnalyzer.parse_line (join_commas (ts :: sym :: p :: v :: rest))
= Returns (src_row_of_fields ts sym p v).
Proof.
intros Hts Hsym Hp Hv. unfold SrcAnalyzer.parse_line.
rewrite split_csv_line_length. cbn [Nat.eqb negb].
rewrite four_fields_strtod by assumption.
rewrite four_fields_timestamp, four_fields_symbol, four_fields_volume
  by assumption.
rewrite four_fields_price_span by assumption.
unfold src_row_of_fields.
destruct (CLib.strtod_string p) as [x n]. cbn [bind].
unfold FieldRange.end_. cbn [FieldRange.start FieldRange.length char_ptr_eqb].
set (o := String.length ts + 1 + String.length sym + 1).
assert (H0 : (o + n =? o) = (n =? 0)).
{ destruct (Nat.eqb_spec (o + n) o), (Nat.eqb_spec n 0); lia || reflexivity. }
assert (H1 : (o + n =? o + String.length p) = (n =? String.length p)).
{ destruct (Nat.eqb_spec (o + n) (o + String.length p)),
           (Nat.eqb_spec n (String.length p)); lia || reflexivity. }
rewrite H0, H1.
destruct (CLib.from_chars_long v) as [[[] [vol|]] k];
  destruct ((n =? 0) || negb (n =? String.length p)); reflexivity.
Qed.

Lemma src_parse_line_reads_four_fields_witness :
SrcAnalyzer.parse_line "2024-01-02 09:30:00,AAPL,187.5,1200,x,y"
= Returns {| timestamp := "2024-01-02 09:30:00"; symbol := "AAPL";
             price := 187.5; volume := 1200; is_valid := true |}.
Proof.
refine (eq_trans
  (src_parse_line_reads_four_fields
     "2024-01-02 09:30:00" "AAPL" "187.5" "1200" ["x"; "y"] _ _ _ _) _);
  vm_compute; try reflexivity; repeat split; discriminate.
Defined.

(** X15. On the same lines [parse_line] at the top of the tree returns the
    row [std::stod] and [std::stol] give on the third and fourth field. *)
Theorem root_parse_line_reads_four_fields ts sym p v rest :
comma_free ts -> comma_free sym -> comma_free p -> comma_free v ->
RootAnalyzer.parse_line (join_commas (ts :: sym :: p :: v :: rest))
= root_row_of_fields ts sym p v.
Proof.
intros Hts Hsym Hp Hv. unfold RootAnalyzer.parse_line.
rewrite split_csv_line_length. cbn [Nat.eqb negb].
rewrite four_fields_timestamp, four_fields_symbol, four_fields_price,
  four_fields_volume by assumption.
unfold root_row_of_fields.
destruct (CLib.stod p); [|reflexivity].
destruct (CLib.stol v); reflexivity.
Qed.

Lemma root_parse_line_reads_four_fields_witness :
RootAnalyzer.parse_line "2024-01-02 09:30:00,AAPL,187.5 USD, +1200 shares,x"
= {| timestamp := "2024-01-02 09:30:00"; symbol := "AAPL";
     price := 187.5; volume := 1200; is_valid := true |}.
Proof.
refine (eq_trans
  (root_parse_line_reads_four_fields
     "2024-01-02 09:30:00" "AAPL" "187.5 USD" " +1200 shares" ["x"] _ _ _ _) _);
  vm_compute; try reflexivity; repeat split; discriminate.
Defined.

(* ===================================================================== *)
(** * Command line                                                        *)
(* ===================================================================== *)

Lemma prefix_cons a s1 b s2 :
String.prefix (String a s1) (String b s2)
= if ascii_dec a b then String.prefix s1 s2 else false.
Proof. reflexivity. Qed.

Lemma is_flag_agree arg : IncludeCsv.is_flag arg = RootCsv.is_flag arg.
Proof.
unfold IncludeCsv.is_flag, RootCsv.is_flag.
destruct arg as [|a [|b s]]; [reflexivity| |].
- rewrite prefix_cons. destruct (ascii_dec "-" a); reflexivity.
- rewrite !prefix_cons.
  cbn [String.length Nat.leb andb substring].
  replace (substring 0 0 s) with EmptyString by (destruct s; reflexivity).
  cbn [String.eqb].
  destruct (ascii_dec "-" a) as [<-|Ha].
  + destruct (ascii_dec "-" b) as [<-|Hb].
    * destruct s; reflexivity.
    * destruct (Ascii.eqb_spec b "-"); [congruence | reflexivity].
  + destruct (Ascii.eqb_spec a "-"); [congruence | reflexivity].
Qed.

Lemma set_flag_outputs config key value config' t :
set_flag config key value = inl config' ->
output_of config' t = output_of config t || String.eqb key (flag_of t).
Proof.
unfold set_flag.
destruct (String.eqb_spec key "sma") as [->|Hsma].
{ destruct (stoi value); intros [= <-]; destruct t; cbn;
    rewrite ?orb_false_r, ?orb_true_r; reflexivity. }
destruct (String.eqb_spec key "ema") as [->|Hema].
{ destruct (stoi value); intros [= <-]; destruct t; cbn;
    rewrite ?orb_false_r, ?orb_true_r; reflexivity. }
destruct (String.eqb_spec key "vol") as [->|Hvol].
{ destruct (stoi value); intros [= <-]; destruct t; cbn;
    rewrite ?orb_false_r, ?orb_true_r; reflexivity. }
destruct (String.eqb_spec key "symbol") as [->|Hsym].
{ intros [= <-]; destruct t; cbn; rewrite ?orb_false_r; reflexivity. }
destruct (String.eqb_spec key "vwap") as [->|Hvwap].
{ destruct (String.eqb value "daily"); intros [= <-]; destruct t; cbn;
    rewrite ?orb_false_r, ?orb_true_r; reflexivity. }
discriminate.
Qed.

Lemma set_flag_input_filename config key value config' :
set_flag config key value = inl config' ->
input_filename config' = input_filename config.
Proof.
unfold set_flag.
repeat match goal with
       | |- context [if ?b then _ else _] => destruct b
       | |- context [match stoi ?v with _ => _ end] => destruct (stoi v)
       end; intros [= <-]; reflexivity.
Qed.

Lemma set_flag_known_key config key value config' :
set_flag config key value = inl config' ->
In key ["sma"; "ema"; "vol"; "symbol"; "vwap"].
Proof.
unfold set_flag.
destruct (String.eqb_spec key "sma") as [->|_]; [cbn; tauto|].
destruct (String.eqb_spec key "ema") as [->|_]; [cbn; tauto|].
destruct (String.eqb_spec key "vol") as [->|_]; [cbn; tauto|].
destruct (String.eqb_spec key "symbol") as [->|_]; [cbn; tauto|].
destruct (String.eqb_spec key "vwap") as [->|_]; [cbn; tauto|].
discriminate.
Qed.

Lemma include_parse_args_outputs t args : forall config config',
IncludeCsv.parse_args config args = inl config' ->
output_of config' t
= output_of config t
  || existsb (fun key => String.eqb key (flag_of t))
       (flag_keys IncludeCsv.is_flag args).
Proof.
induction args as [|arg args IH]; intros config config' H.
- injection H as <-. cbn. rewrite orb_false_r. reflexivity.
- cbn [IncludeCsv.parse_args] in H. unfold flag_keys. cbn [flat_map].
  fold (flag_keys IncludeCsv.is_flag args).
  destruct (IncludeCsv.is_flag arg).
  + destruct (find_char "=" arg) as [eq_pos|]; [|discriminate H].
    destruct (set_flag config _ _) as [c1|] eqn:Hset; [|discriminate H].
    rewrite (IH _ _ H), (set_flag_outputs _ _ _ _ t Hset).
    cbn [app existsb]. rewrite orb_assoc. reflexivity.
  + rewrite (IH _ _ H). destruct t; reflexivity.
Qed.

Lemma root_parse_args_outputs t args : forall config config',
RootCsv.parse_args config args = inl config' ->
output_of config' t
= output_of config t
  || existsb (fun key => String.eqb key (flag_of t))
       (flag_keys RootCsv.is_flag args).
Proof.
induction args as [|arg args IH]; intros config config' H.
- injection H as <-. cbn. rewrite orb_false_r. reflexivity.
- cbn [RootCsv.parse_args] in H. unfold flag_keys. cbn [flat_map].
  fold (flag_keys RootCsv.is_flag args).
  destruct (RootCsv.is_flag arg).
  + destruct (find_char "=" arg) as [eq_pos|].
    * destruct (set_flag config _ _) as [c1|] eqn:Hset; [|discriminate H].
      rewrite (IH _ _ H), (set_flag_outputs _ _ _ _ t Hset).
      cbn [app existsb]. rewrite orb_assoc. reflexivity.
    * exact (IH _ _ H).
  + rewrite (IH _ _ H). destruct t; reflexivity.
Qed.

Lemma existsb_key_In key keys :
existsb (fun k => String.eqb k key) keys = true <-> In key keys.
Proof.
rewrite existsb_exists. split.
- intros (k & Hin & Hk). apply String.eqb_eq in Hk. subst. exact Hin.
- intros Hin. exists key. split; [exact Hin | apply String.eqb_refl].
Qed.

(** X16. A parsed command line switches the column of an indicator on
    exactly when a flag with the key of that indicator and a value is among
    the arguments, in either header. *)
Theorem cli_columns_follow_flags (args : list string) (config : CLIConfig)
        (t : IndicatorType) :
(IncludeCsv.parse_cli_args args = inl config ->
 (output_of config t = true
  <-> In (flag_of t) (flag_keys IncludeCsv.is_flag args))) /\
(RootCsv.parse_cli_args args = inl config ->
 (output_of config t = true
  <-> In (flag_of t) (flag_keys RootCsv.is_flag args))).
Proof.
split; intros H.
- rewrite (include_parse_args_outputs t _ _ _ H), <- existsb_key_In.
  destruct t; reflexivity.
- rewrite (root_parse_args_outputs t _ _ _ H), <- existsb_key_In.
  destruct t; reflexivity.
Qed.

Lemma cli_columns_follow_flags_witness :
exists config,
  IncludeCsv.parse_cli_args ["--sma=5"; "data.csv"; "--vwap=daily"]
  = inl config /\
  (output_of config VWAP = true
   <-> In "vwap" (flag_keys IncludeCsv.is_flag
                    ["--sma=5"; "data.csv"; "--vwap=daily"])) /\
  output_of config EMA = false.
Proof.
eexists. split; [reflexivity|]. split; [|reflexivity].
apply (cli_columns_follow_flags ["--sma=5"; "data.csv"; "--vwap=daily"] _ VWAP).
reflexivity.
Defined.

Lemma include_parse_args_file args : forall config config',
IncludeCsv.parse_args config args = inl config' ->
input_filename config'
= default (input_filename config)
    (last (file_arguments IncludeCsv.is_flag args)).
Proof.
induction args as [|arg args IH]; intros config config' H.
- injection H as <-. reflexivity.
- cbn [IncludeCsv.parse_args] in H. unfold file_arguments.
  cbn [List.filter]. fold (file_arguments IncludeCsv.is_flag args).
  destruct (IncludeCsv.is_flag arg); cbn [negb].
  + destruct (find_char "=" arg) as [eq_pos|]; [|discriminate H].
    destruct (set_flag config _ _) as [c1|] eqn:Hset; [|discriminate H].
    rewrite (IH _ _ H), (set_flag_input_filename _ _ _ _ Hset). reflexivity.
  + rewrite (IH _ _ H). cbn [set_input_filename input_filename].
    symmetry. apply last_cons_default.
Qed.

Lemma root_parse_args_file args : forall config config',
RootCsv.parse_args config args = inl config' ->
input_filename config'
= default (input_filename config)
    (last (file_arguments RootCsv.is_flag args)).
Proof.
induction args as [|arg args IH]; intros config config' H.
- injection H as <-. reflexivity.
- cbn [RootCsv.parse_args] in H. unfold file_arguments.
  cbn [List.filter]. fold (file_arguments RootCsv.is_flag args).
  destruct (RootCsv.is_flag arg); cbn [negb].
  + destruct (find_char "=" arg) as [eq_pos|].
    * destruct (set_flag config _ _) as [c1|] eqn:Hset; [|discriminate H].
      rewrite (IH _ _ H), (set_flag_input_filename _ _ _ _ Hset).
      reflexivity.
    * exact (IH _ _ H).
  + rewrite (IH _ _ H). cbn [set_input_filename input_filename].
    symmetry. apply last_cons_default.
Qed.

(** X17. The input file of a parsed command line is the last argument that
    is not a flag, and the empty name when every argument is a flag, in
    either header. *)
Theorem cli_input_file_is_last_plain_argument (args : list string)
        (config : CLIConfig) :
(IncludeCsv.parse_cli_args args = inl config ->
 input_filename config
 = default "" (last (file_arguments IncludeCsv.is_flag args))) /\
(RootCsv.parse_cli_args args = inl config ->
 input_filename config
 = default "" (last (file_arguments RootCsv.is_flag args))).
Proof.
split; intros H.
- exact (include_parse_args_file _ _ _ H).
- exact (root_parse_args_file _ _ _ H).
Qed.

Lemma cli_input_file_is_last_plain_argument_witness :
exists config,
  RootCsv.parse_cli_args ["old.csv"; "--ema=9"; "new.csv"; "--symbol=AAPL"]
  = inl config /\
  input_filename config = "new.csv".
Proof.
eexists. split; [reflexivity|].
exact (proj2 (cli_input_file_is_last_plain_argument
                ["old.csv"; "--ema=9"; "new.csv"; "--symbol=AAPL"] _)
         eq_refl).
Defined.

Lemma valueless_false is_flag arg :
valueless is_flag arg = false ->
is_flag arg = true -> exists eq_pos, find_char "=" arg = Some eq_pos.
Proof.
unfold valueless. intros H Hf. rewrite Hf in H. cbn [andb] in H.
apply negb_false_iff, bool_decide_eq_true in H. exact H.
Qed.

(** X18. The two headers parse a command line alike as long as every flag
    carries a value. *)
Theorem cli_headers_agree_on_valued_flags (args : list string) :
Forall (fun arg => valueless IncludeCsv.is_flag arg = false) args ->
IncludeCsv.parse_cli_args args = RootCsv.parse_cli_args args.
Proof.
unfold IncludeCsv.parse_cli_args, RootCsv.parse_cli_args.
generalize default_config.
induction args as [|arg args IH]; intros config Hall; [reflexivity|].
apply Forall_cons in Hall as [Harg Hall].
cbn [IncludeCsv.parse_args RootCsv.parse_args].
rewrite <- is_flag_agree.
destruct (IncludeCsv.is_flag arg) eqn:Hf.
- destruct (valueless_false _ _ Harg Hf) as [eq_pos ->].
  destruct (set_flag config _ _); [apply IH; exact Hall | reflexivity].
- apply IH. exact Hall.
Qed.

Lemma cli_headers_agree_on_valued_flags_witness :
IncludeCsv.parse_cli_args ["--sma=3"; "--vol=x"; "data.csv"]
= RootCsv.parse_cli_args ["--sma=3"; "--vol=x"; "data.csv"].
Proof.
apply (cli_headers_agree_on_valued_flags ["--sma=3"; "--vol=x"; "data.csv"]).
repeat constructor.
Defined.

Lemma root_parse_args_skips args : forall config,
RootCsv.parse_args config args
= RootCsv.parse_args config
    (List.filter (fun arg => negb (valueless RootCsv.is_flag arg)) args).
Proof.
induction args as [|arg args IH]; intros config; [reflexivity|].
cbn [List.filter]. unfold valueless at 1.
cbn [RootCsv.parse_args].
destruct (RootCsv.is_flag arg) eqn:Hf; cbn [andb negb].
- destruct (find_char "=" arg) as [eq_pos|] eqn:Hfind.
  + rewrite bool_decide_eq_true_2 by (eexists; reflexivity). cbn [negb].
    cbn [RootCsv.parse_args]. rewrite Hf, Hfind.
    destruct (set_flag config _ _); [apply IH | reflexivity].
  + rewrite bool_decide_eq_false_2 by (intros [x Hx]; discriminate Hx).
    cbn [negb]. apply IH.
- cbn [RootCsv.parse_args]. rewrite Hf. apply IH.
Qed.

Lemma include_parse_args_rejects arg args : forall config,
In arg args -> valueless IncludeCsv.is_flag arg = true ->
exists e, IncludeCsv.parse_args config args = inr e.
Proof.
induction args as [|a args IH]; intros config Hin Hv; [destruct Hin|].
cbn [IncludeCsv.parse_args].
destruct Hin as [->|Hin].
- unfold valueless in Hv. apply andb_true_iff in Hv as [Hf Hnone].
  rewrite Hf. destruct (find_char "=" arg) as [eq_pos|].
  + apply negb_true_iff, bool_decide_eq_false in Hnone.
    exfalso. apply Hnone. eexists; reflexivity.
  + eexists; reflexivity.
- destruct (IncludeCsv.is_flag a).
  + destruct (find_char "=" a) as [eq_pos|]; [|eexists; reflexivity].
    destruct (set_flag config _ _); [|eexists; reflexivity].
    apply IH; assumption.
  + apply IH; assumption.
Qed.

(** X19. A flag without a value makes [parse_cli_args] of [include/csv.hpp]
    throw, whatever the other arguments are; [parse_cli_args] of the header
    at the top of the tree parses the command line as if such flags were
    not there. *)
Theorem cli_flag_without_value (args : list string) :
(forall arg, In arg args -> valueless IncludeCsv.is_flag arg = true ->
             exists e, IncludeCsv.parse_cli_args args = inr e) /\
RootCsv.parse_cli_args args
= RootCsv.parse_cli_args
    (List.filter (fun arg => negb (valueless RootCsv.is_flag arg)) args).
Proof.
split.
- intros arg Hin Hv. exact (include_parse_args_rejects _ _ _ Hin Hv).
- apply root_parse_args_skips.
Qed.

Lemma cli_flag_without_value_witness :
(exists e, IncludeCsv.parse_cli_args ["--sma=3"; "--verbose"; "data.csv"]
           = inr e) /\
RootCsv.parse_cli_args ["--sma=3"; "--verbose"; "data.csv"]
= RootCsv.parse_cli_args ["--sma=3"; "data.csv"].
Proof.
split.
- apply (proj1 (cli_flag_without_value ["--sma=3"; "--verbose"; "data.csv"])
           "--verbose"); [cbn; tauto | reflexivity].
- exact (proj2 (cli_flag_without_value ["--sma=3"; "--verbose"; "data.csv"])).
Defined.

(* ===================================================================== *)
(** * main                                                                *)
(* ===================================================================== *)

Lemma file_arguments_all_flags is_flag args :
Forall (fun arg => is_flag arg = true) args ->
file_arguments is_flag args = [].
Proof.
induction 1 as [|arg args Harg _ IH]; [reflexivity|].
unfold file_arguments. cbn [List.filter]. rewrite Harg. exact IH.
Qed.

(** X20. Without an argument that is not a flag, [main] returns 1 and
    writes nothing to standard output, whatever the flags and the files
    are, in both programs. *)
Theorem main_without_file_name_fails (args : list string)
        (open : string -> option (list string)) :
Forall (fun arg => IncludeCsv.is_flag arg = true) args ->
src_main args open = Returns failed_run /\
root_main args open = failed_run.
Proof.
intros Hall. split.
- unfold src_main.
  destruct (IncludeCsv.parse_cli_args args) as [config|] eqn:Hparse;
    [|reflexivity].
  apply include_parse_args_file in Hparse.
  rewrite file_arguments_all_flags in Hparse by exact Hall.
  cbn in Hparse. rewrite Hparse. reflexivity.
- unfold root_main.
  destruct (RootCsv.parse_cli_args args) as [config|] eqn:Hparse;
    [|reflexivity].
  apply root_parse_args_file in Hparse.
  rewrite file_arguments_all_flags in Hparse.
  + cbn in Hparse. rewrite Hparse. reflexivity.
  + eapply Forall_impl; [exact Hall|]. cbn. intros arg.
    rewrite is_flag_agree. trivial.
Qed.

Lemma main_without_file_name_fails_witness :
src_main ["--sma=5"; "--vwap=daily"] (fun _ => Some ["t,A,1,1"])
= Returns failed_run /\
root_main ["--sma=5"; "--vwap=daily"] (fun _ => Some ["t,A,1,1"])
= failed_run.
Proof.
apply (main_without_file_name_fails ["--sma=5"; "--vwap=daily"]).
repeat constructor.
Defined.

(** X21. A run of [main] writes data rows only after a header, and every
    row has as many cells as the header has names; a run without a header
    writes nothing. Under [src/] a run with a header returns 0 and one
    without returns 1. *)
Theorem main_rows_follow_header (args : list string)
        (open : string -> option (list string)) :
(forall r, src_main args open = Returns r ->
   match header r with
   | Some h => exit_code r = 0%Z /\ Forall (row_shaped (length h)) (rows r)
   | None => exit_code r = 1%Z /\ rows r = []
   end) /\
match header (root_main args open) with
| Some h => exit_code (root_main args open) = 0%Z /\
            Forall (row_shaped (length h)) (rows (root_main args open))
| None => rows (root_main args open) = []
end.
Proof.
split.
- intros r. unfold src_main.
  destruct (IncludeCsv.parse_cli_args args) as [config|];
    [|intros [= <-]; split; reflexivity].
  destruct (String.eqb (input_filename config) "");
    [intros [= <-]; split; reflexivity|].
  destruct (open (input_filename config)) as [lines|];
    [|intros [= <-]; split; reflexivity].
  unfold SrcAnalyzer.process_file.
  destruct (SrcAnalyzer.process_lines config initial_state lines)
    as [st|] eqn:Hrun; [|discriminate].
  cbn [bind]. intros [= <-]. cbn [header exit_code rows].
  split; [reflexivity|].
  destruct (src_rows_added
              (row_shaped (length (SrcAnalyzer.print_csv_header config)))
              config
              (fun row series _ => src_print_csv_row_shaped config row series)
              _ _ _ Hrun) as (new & Hnew & Hshape).
  rewrite Hnew. exact Hshape.
- unfold root_main.
  destruct (RootCsv.parse_cli_args args) as [config|]; [|reflexivity].
  destruct (String.eqb (input_filename config) ""); [reflexivity|].
  destruct (open (input_filename config)) as [lines|]; [|reflexivity].
  cbn [header exit_code rows]. split; [reflexivity|].
  unfold RootAnalyzer.process_file.
  destruct (root_rows_added
              (row_shaped (length (RootAnalyzer.print_csv_header config)))
              config
              (fun row series _ => root_print_csv_row_shaped config row series)
              lines initial_state) as (new & Hnew & Hshape).
  rewrite Hnew. exact Hshape.
Qed.

Lemma main_rows_follow_header_witness :
exists r,
  src_main ["--sma=2"; "--vwap=daily"; "data.csv"]
    (fun _ => Some ["t1,A,10,1"; ""; "x,y,z,w"; "t2,B,20,2"]) = Returns r /\
  exit_code r = 0%Z /\ Forall (row_shaped 6) (rows r).
Proof.
eexists. split; [vm_compute; reflexivity|].
exact (proj1 (main_rows_follow_header
                ["--sma=2"; "--vwap=daily"; "data.csv"]
                (fun _ => Some ["t1,A,10,1"; ""; "x,y,z,w"; "t2,B,20,2"]))
         _ eq_refl).
Defined.
